(** * Scores table (web/src/components/table/use-cases/scores.tsx)

    A shallow embedding of the [ScoresTable] component: the state slices it
    reads through its hooks, the fetch request it composes, the cell
    renderers of its column schema, the projection of fetched scores into
    table rows and the props it hands to the toolbar and to the table.

    Conventions of the embedding.
    - A JavaScript string is the sequence of bytes of its generalised
      UTF-8 encoding ([string]): a code point is encoded as in UTF-8, a
      surrogate pair as the four bytes of its code point, and a lone
      surrogate [U+D800..U+DFFF] as the three bytes [ED A0..BF 80..BF].
    - A JavaScript number is an IEEE 754 binary64 datum ([spec_float] at
      precision 53).  Page indexes, page sizes and row counts are
      integers ([Z]), which are numbers as they are up to [2^53];
      arithmetic on them is the arithmetic of numbers.
    - A field that can be [undefined] at run time is an [option]; the
      evaluation of an expression either returns or throws
      ([Outcome]). *)

From Stdlib Require Import ZArith List String Ascii Bool Lia.
From Stdlib Require Import DecimalString DecimalN DecimalPos.
From Stdlib Require Import Floats.SpecFloat.
Import ListNotations.

Local Open Scope string_scope.
Local Open Scope Z_scope.

(** ** JavaScript numbers *)

Module Number.

Definition prec : Z := 53.
Definition emax : Z := 1024.

Definition number : Type := spec_float.

(** The binary64 data: a finite datum has a canonical mantissa and an
    exponent in range. *)
Definition valid (x : number) : bool := valid_binary prec emax x.

Definition finite (x : number) : bool :=
  match x with
  | S754_zero _ | S754_finite _ _ _ => true
  | S754_infinity _ | S754_nan => false
  end.

Definition of_Z (z : Z) : number := binary_normalize prec emax z 0 false.

(** The value of a numeric literal [p/q] written in decimal: the
    correctly rounded quotient of two exactly representable integers. *)
Definition of_ratio (p q : Z) : number := SFdiv prec emax (of_Z p) (of_Z q).

(** [x / y]. *)
Definition div (x y : number) : number := SFdiv prec emax x y.

(** [Math.ceil(x)]: the least integer that is not below [x], which is a
    number; a number without a fraction is its own ceiling, and the
    ceiling of a negative fraction above [-1] is the negative zero. *)
Definition ceil (x : number) : number :=
  match x with
  | S754_finite s m e =>
      if 0 <=? e then x
      else binary_normalize prec emax
             (- ((- cond_Zopp s (Zpos m)) / 2 ^ (- e))) 0 s
  | S754_zero _ | S754_infinity _ | S754_nan => x
  end.

(** [x % 1]: the remainder of the truncated division by one, which has
    the sign of the dividend and is exact; [NaN] when [x] is not
    finite. *)
Definition rem1 (x : number) : number :=
  match x with
  | S754_nan | S754_infinity _ => S754_nan
  | S754_zero s => S754_zero s
  | S754_finite s m e =>
      if 0 <=? e then S754_zero s
      else binary_normalize prec emax
             (cond_Zopp s (Zpos m mod 2 ^ (- e))) e s
  end.

(** [x === y] on numbers. *)
Definition strict_eq (x y : number) : bool := SFeqb x y.

Definition zero : number := S754_zero false.

(** *** Decimal digits of a natural number *)

Definition digits (n : N) : string := NilZero.string_of_uint (N.to_uint n).

Fixpoint zeros (k : nat) : string :=
  match k with
  | O => ""
  | S k' => String "0" (zeros k')
  end.

(** Steps 9.c-9.d of Number.prototype.toFixed: the digits of [n], padded
    on the left with zeros to at least [f + 1] characters, with a point
    before the last [f] of them. *)
Definition point_string (f : nat) (n : N) : string :=
  let m := digits n in
  match f with
  | O => m
  | _ =>
      let k := String.length m in
      let m := if (k <=? f)%nat then zeros (f + 1 - k) ++ m else m in
      let k := String.length m in
      substring 0 (k - f) m ++ "." ++ substring (k - f) f m
  end.

(** The integer [n] for which [n / 10^f - m * 2^e] is as close to zero as
    possible, the larger one when there are two. *)
Definition nearest_scaled (f : nat) (m : positive) (e : Z) : Z :=
  let p := 10 ^ Z.of_nat f in
  if 0 <=? e then Zpos m * 2 ^ e * p
  else (2 * (Zpos m * p) + 2 ^ (- e)) / (2 * 2 ^ (- e)).

(** [10^21 <= m * 2^e]. *)
Definition at_least_1e21 (m : positive) (e : Z) : bool :=
  if 0 <=? e then 10 ^ 21 <=? Zpos m * 2 ^ e
  else 10 ^ 21 * 2 ^ (- e) <=? Zpos m.

(** [m * 2^e] when it is an integer. *)
Definition integerValue (m : positive) (e : Z) : option Z :=
  if 0 <=? e then Some (Zpos m * 2 ^ e)
  else if Zpos m mod 2 ^ (- e) =? 0 then Some (Zpos m / 2 ^ (- e))
  else None.

Definition minus (s : bool) : string := if s then "-" else "".

(** Number::toString (ECMA-262) on the numbers that are not finite, on
    the zeros and on the integers up to [2^53] in magnitude, all of whose
    decimal digits are needed to read the number back and make up its
    string.  The other numbers are printed with the shortest digit
    sequence that reads back as the number, which is not modelled: the
    result is [None] there. *)
Definition toString (x : number) : option string :=
  match x with
  | S754_nan => Some "NaN"
  | S754_infinity s => Some (minus s ++ "Infinity")
  | S754_zero _ => Some "0"
  | S754_finite s m e =>
      match integerValue m e with
      | Some k =>
          if k <=? 2 ^ 53 then Some (minus s ++ digits (Z.to_N k))
          else None
      | None => None
      end
  end.

(** [x.toFixed(f)] (ECMA-262, Number.prototype.toFixed): the string of
    Number::toString for a number that is not finite or is [10^21] or
    more in magnitude; otherwise the sign of a negative number and the
    digits of the nearest multiple of [10^-f]. *)
Definition toFixed (f : nat) (x : number) : option string :=
  match x with
  | S754_nan | S754_infinity _ => toString x
  | S754_zero _ => Some (point_string f 0)
  | S754_finite s m e =>
      if at_least_1e21 m e then toString x
      else Some (minus s ++ point_string f (Z.to_N (nearest_scaled f m e)))
  end.

(** *** Notions the properties are stated with *)

(** The number is an integer. *)
Definition integral (x : number) : bool :=
  match x with
  | S754_zero _ => true
  | S754_finite _ m e => (0 <=? e) || (Zpos m mod 2 ^ (- e) =? 0)
  | S754_infinity _ | S754_nan => false
  end.

(** The integer an integral number is. *)
Definition toZ (x : number) : option Z :=
  match x with
  | S754_zero _ => Some 0
  | S754_finite s m e => option_map (cond_Zopp s) (integerValue m e)
  | S754_infinity _ | S754_nan => None
  end.

(** The natural number a string of decimal digits denotes. *)
Definition natValue (s : string) : option N :=
  option_map N.of_uint (NilEmpty.uint_of_string s).

(** A string that, when its characters are digits, is the plain numeral
    of an integer: not empty, and without a zero in front unless it is
    the one digit [0]. *)
Definition plainInteger (a : string) : bool :=
  match a with
  | EmptyString => false
  | String c rest => negb (Ascii.eqb c "0") || String.eqb rest ""
  end.

(** [s] is the fixed-point numeral with [f] decimals of [n / 10^f],
    negated when [negative]: a sign, the plain numeral of the integer
    part, a point and [f] digits. *)
Definition fixedPoint (f : nat) (s : string) (negative : bool) (n : N)
  : Prop :=
  exists a b : string,
    s = minus negative ++ a ++ "." ++ b
    /\ plainInteger a = true
    /\ String.length b = f
    /\ natValue (a ++ b) = Some n.

(** What a location says of the remainder [r] of a division by [d]. *)
Definition locates (l : location) (r d : Z) : Prop :=
  match l with
  | loc_Exact => r = 0
  | loc_Inexact Lt => 0 < 2 * r < d
  | loc_Inexact Eq => 0 < r /\ 2 * r = d
  | loc_Inexact Gt => d < 2 * r
  end.

End Number.

(** ** Strings *)

Definition hexDigit (n : N) : ascii :=
  ascii_of_N (if (n <? 10)%N then 48 + n else 55 + n)%N.

(** The characters [encodeURIComponent] leaves alone: letters, digits and
    [- _ . ! ~ * ' ( )]. *)
Definition uriUnreserved (c : ascii) : bool :=
  let n := N_of_ascii c in
  ((65 <=? n) && (n <=? 90) || (97 <=? n) && (n <=? 122)
   || (48 <=? n) && (n <=? 57))%N
  || existsb (Ascii.eqb c)
       ["-"; "_"; "."; "!"; "~"; "*"; "'"; "("; ")"]%char.

(** Every byte that is not unreserved becomes [%XX] in upper-case
    hexadecimal. *)
Fixpoint percentEncode (s : string) : string :=
  match s with
  | EmptyString => EmptyString
  | String c rest =>
      (if uriUnreserved c then String c EmptyString
       else String "%" (String (hexDigit (N_of_ascii c / 16))
                          (String (hexDigit (N_of_ascii c mod 16))
                                  EmptyString)))
      ++ percentEncode rest
  end.

(** The second byte of an encoded surrogate: [A0..BF]. *)
Definition surrogateTail (s : string) : bool :=
  match s with
  | String d _ => ((160 <=? N_of_ascii d) && (N_of_ascii d <=? 191))%N
  | EmptyString => false
  end.

(** The string has a lone surrogate: the byte [ED], which only starts
    the code points [U+D000..U+DFFF], followed by a byte of [A0..BF]. *)
Fixpoint hasLoneSurrogate (s : string) : bool :=
  match s with
  | EmptyString => false
  | String c rest =>
      ((N_of_ascii c =? 237)%N && surrogateTail rest)
      || hasLoneSurrogate rest
  end.

(** A string value in a template literal or in a condition; [None] is
    [undefined]. *)
Definition templateString (v : option string) : string :=
  match v with
  | Some s => s
  | None => "undefined"
  end.

Definition truthy (v : option string) : bool :=
  match v with
  | Some (String _ _) => true
  | Some EmptyString | None => false
  end.

(** [list.includes(x)] on a list of strings. *)
Definition includes (l : list string) (x : string) : bool :=
  existsb (String.eqb x) l.

Definition isSome {A : Type} (o : option A) : bool :=
  match o with
  | Some _ => true
  | None => false
  end.

(** ** Evaluation results *)

Inductive Exception : Type :=
| TypeError
| URIError.

(** An evaluation returns a value, throws, or leaves the modelled fragment
    of the language ([NotModelled]: Number::toString of a finite number of
    magnitude [10^21] or more). *)
Inductive Outcome (A : Type) : Type :=
| Returns (a : A)
| Throws (e : Exception)
| NotModelled.

Arguments Returns {A} a.
Arguments Throws {A} e.
Arguments NotModelled {A}.

Definition bind {A B : Type} (o : Outcome A) (k : A -> Outcome B) : Outcome B :=
  match o with
  | Returns a => k a
  | Throws e => Throws e
  | NotModelled => NotModelled
  end.

(** [encodeURIComponent s]: a [URIError] when the string has a lone
    surrogate, and otherwise the bytes of its UTF-8 encoding with every
    byte that is not unreserved escaped. *)
Definition encodeURIComponent (s : string) : Outcome string :=
  if hasLoneSurrogate s then Throws URIError
  else Returns (percentEncode s).

(** What a cell renderer returns: [undefined], [null], a number, a string,
    a [<TableLink path value truncateAt />] element or a fragment. *)
#[warnings="-register-all"]
Inductive ReactNode : Type :=
| Undefined
| Null
| NumberNode (x : Number.number)
| StringNode (s : string)
| TableLink (path : string) (value : option string) (truncateAt : option Z)
| Fragment (children : list ReactNode).

(** ** Imported definitions

    What the component imports and this file does not contain: the
    [Date] of a score with its locale rendering, the filter-option
    metadata with the column descriptors built from it
    ([scoresTableColsWithOptions], whose elements have a [name]), and the
    column-visibility state held by [useColumnVisibility]. *)
Class Imports : Type := {
  Date : Type;
  toLocaleString : Date -> string;
  ScoreOptions : Type;
  ColumnDescriptor : Type;
  descriptorName : ColumnDescriptor -> string;
  scoresTableColsWithOptions : option ScoreOptions -> list ColumnDescriptor;
  VisibilityState : Type
}.

(** ** Data model *)

(** [ScoresTableRow].  Every field is an [option]: [None] is [undefined],
    which the optional fields have by their type and the other ones can
    only have at run time. *)
Module ScoresTableRow.
Record t : Type := {
  id : option string;
  traceId : option string;
  timestamp : option string;
  name : option string;
  value : option Number.number;
  comment : option string;
  observationId : option string;
  traceName : option string;
  userId : option string
}.

(** The rows of the declared type: [id], [traceId], [timestamp], [name],
    [value] and [traceName] are present, and the value is a binary64
    number. *)
Definition well_typed (r : t) : bool :=
  match id r, traceId r, timestamp r, name r, value r, traceName r with
  | Some _, Some _, Some _, Some _, Some v, Some _ => Number.valid v
  | _, _, _, _, _, _ => false
  end.
End ScoresTableRow.

(** An element of the [scores] array of the fetch response; [None] in an
    optional field is [null]. *)
Module Score.
Record t `{Imports} : Type := {
  id : string;
  timestamp : Date;
  name : string;
  value : Number.number;
  comment : option string;
  observationId : option string;
  traceId : string;
  traceName : string;
  userId : option string
}.
End Score.

Inductive FilterValue : Type :=
| StringValue (s : string)
| NumberValue (x : Number.number)
| StringsValue (l : list string).

Record FilterCondition : Type := {
  column : string;
  type : string;
  operator : string;
  value : FilterValue
}.

Definition FilterState : Type := list FilterCondition.

Module OrderBy.
Record t : Type := {
  column : string;
  order : string
}.
End OrderBy.

(** [OrderByState]: an order or [null]. *)
Definition OrderByState : Type := option OrderBy.t.

Record PaginationState : Type := {
  pageIndex : Z;
  pageSize : Z
}.

(** The input of [api.scores.all.useQuery]. *)
Module Request.
Record t : Type := {
  page : Z;
  limit : Z;
  projectId : string;
  filter : FilterState;
  orderBy : OrderByState
}.
End Request.

(** The fetch response and the state of the fetch as the query hook
    reports it. *)
Module Query.
Record Response `{Imports} : Type := {
  totalCount : Z;
  scores : list Score.t
}.

Record Error : Type := { message : string }.

Record t `{Imports} : Type := {
  isLoading : bool;
  isError : bool;
  error : option Error;
  data : option Response
}.

(** The shapes of the hook's result type: loading; error, with an error
    object; success, with data. *)
Definition well_formed `{Imports} (q : t) : bool :=
  if isLoading q then true
  else if isError q then isSome (error q)
  else isSome (data q).
End Query.

(** The component's props. *)
Module Props.
Record t : Type := {
  projectId : string;
  userId : option string;
  omittedFilter : option (list string)
}.
End Props.

(** ** State slices and their hooks *)

(** Modelled from the spec: the address space the hooks [useQueryParams],
    [useQueryFilterState] and [useOrderByState] decode, which are not part
    of this file.  Each slice has one fragment; [None] is an absent or
    invalid fragment, which decodes to the default given at the call
    (spec 4.1, 4.3 and 6). *)
Record AddressSpace : Type := {
  pageIndexParam : option Z;
  pageSizeParam : option Z;
  filterParam : option FilterState;
  orderByParam : option OrderBy.t
}.

Definition noFragments : AddressSpace :=
  {| pageIndexParam := None; pageSizeParam := None;
     filterParam := None; orderByParam := None |}.

(** Modelled from the spec: [withDefault(param, d)] decodes an absent
    fragment to [d]. *)
Definition withDefault {A : Type} (d : A) (decoded : option A) : A :=
  match decoded with
  | Some v => v
  | None => d
  end.

(** Modelled from the spec: the state [useQueryFilterState(initial, table)]
    returns. *)
Definition useQueryFilterState (initialState : FilterState)
    (a : AddressSpace) : FilterState :=
  withDefault initialState (filterParam a).

(** Modelled from the spec: the state [useOrderByState(initial)] returns. *)
Definition useOrderByState (initialState : OrderByState)
    (a : AddressSpace) : OrderByState :=
  match orderByParam a with
  | Some o => Some o
  | None => initialState
  end.

(** The argument of the pagination setter: the fields that are given. *)
Record PaginationUpdate : Type := {
  newPageIndex : option Z;
  newPageSize : option Z
}.

(** The calls of the three setters the hooks return. *)
Inductive Action : Type :=
| setPaginationState (u : PaginationUpdate)
| setUserFilterState (f : FilterState)
| setOrderByState (o : OrderByState).

(** Modelled from the spec: a setter replaces its slice in the address
    space; the pagination setter replaces the fields that are given and
    keeps the other ones (spec 4.4). *)
Definition dispatch (a : AddressSpace) (act : Action) : AddressSpace :=
  match act with
  | setPaginationState u =>
      {| pageIndexParam :=
           match newPageIndex u with
           | Some i => Some i
           | None => pageIndexParam a
           end;
         pageSizeParam :=
           match newPageSize u with
           | Some n => Some n
           | None => pageSizeParam a
           end;
         filterParam := filterParam a;
         orderByParam := orderByParam a |}
  | setUserFilterState f =>
      {| pageIndexParam := pageIndexParam a;
         pageSizeParam := pageSizeParam a;
         filterParam := Some f;
         orderByParam := orderByParam a |}
  | setOrderByState o =>
      {| pageIndexParam := pageIndexParam a;
         pageSizeParam := pageSizeParam a;
         filterParam := filterParam a;
         orderByParam := o |}
  end.

Definition run (a : AddressSpace) (acts : list Action) : AddressSpace :=
  fold_left dispatch acts a.

(** ** The component: state and fetch request *)

Definition paginationState (a : AddressSpace) : PaginationState :=
  {| pageIndex := withDefault 0 (pageIndexParam a);
     pageSize := withDefault 50 (pageSizeParam a) |}.

Definition userFilterState (a : AddressSpace) : FilterState :=
  useQueryFilterState [] a.

Definition userIdFilter (userId : string) : FilterCondition :=
  {| column := "User ID";
     type := "string";
     operator := "=";
     value := StringValue userId |}.

Definition filterState (props : Props.t) (a : AddressSpace) : FilterState :=
  match Props.userId props with
  | Some userId =>
      if truthy (Some userId)
      then (userFilterState a ++ [userIdFilter userId])%list
      else userFilterState a
  | None => userFilterState a
  end.

Definition orderByState (a : AddressSpace) : OrderByState :=
  useOrderByState
    (Some {| OrderBy.column := "timestamp"; OrderBy.order := "DESC" |}) a.

(** The input of [api.scores.all.useQuery]. *)
Definition scoresQuery (props : Props.t) (a : AddressSpace) : Request.t :=
  {| Request.page := pageIndex (paginationState a);
     Request.limit := pageSize (paginationState a);
     Request.projectId := Props.projectId props;
     Request.filter := filterState props a;
     Request.orderBy := orderByState a |}.

(** [scores.data?.totalCount ?? 0]. *)
Definition totalCount `{Imports} (scores : Query.t) : Z :=
  match Query.data scores with
  | Some d => Query.totalCount d
  | None => 0
  end.

(** [Math.ceil(totalCount / pageSize)]: the ceiling of the quotient of
    the two numbers, which is rounded to a number before the ceiling is
    taken. *)
Definition pageCount (totalCount pageSize : Z) : Number.number :=
  Number.ceil (Number.div (Number.of_Z totalCount) (Number.of_Z pageSize)).

(** ** Column schema *)

Module Column.
(** A column definition; a flag that the source does not set is
    [None], and so is the cell renderer of a column that leaves the
    rendering to the table. *)
Record t : Type := {
  accessorKey : string;
  id : string;
  header : string;
  enableColumnFilter : option bool;
  enableSorting : option bool;
  enableHiding : option bool;
  cell : option (ScoresTableRow.t -> Outcome ReactNode)
}.
End Column.

Section Cells.

Variable projectId : string.

Definition traceIdCell (row : ScoresTableRow.t) : Outcome ReactNode :=
  match ScoresTableRow.traceId row with
  | Some value =>
      Returns (Fragment
        [TableLink ("/project/" ++ projectId ++ "/traces/" ++ value)
                   (Some value) None])
  | None => Returns Undefined
  end.

Definition observationIdCell (row : ScoresTableRow.t) : Outcome ReactNode :=
  match ScoresTableRow.observationId row, ScoresTableRow.traceId row with
  | Some observationId, Some traceId =>
      Returns (TableLink
        ("/project/" ++ projectId ++ "/traces/" ++ traceId
         ++ "?observation=" ++ observationId)
        (Some observationId) None)
  | _, _ => Returns Null
  end.

Definition traceNameCell (row : ScoresTableRow.t) : Outcome ReactNode :=
  let value := ScoresTableRow.traceName row in
  bind (encodeURIComponent
          ("name;stringOptions;;any of;" ++ templateString value))
    (fun filter =>
  Returns (TableLink
    ("/project/" ++ projectId ++ "/traces?filter="
     ++ (if truthy value then filter else ""))
    value (Some 40))).

(** [value % 1 === 0 ? value : value.toFixed(4)].  On [undefined] the
    remainder is [NaN], the test fails and the method call on
    [undefined] throws. *)
Definition valueCell (row : ScoresTableRow.t) : Outcome ReactNode :=
  match ScoresTableRow.value row with
  | None => Throws TypeError
  | Some value =>
      if Number.strict_eq (Number.rem1 value) Number.zero
      then Returns (NumberNode value)
      else match Number.toFixed 4 value with
           | Some s => Returns (StringNode s)
           | None => NotModelled
           end
  end.

Definition userIdCell (row : ScoresTableRow.t) : Outcome ReactNode :=
  match ScoresTableRow.userId row with
  | Some value =>
      Returns (Fragment
        [TableLink ("/project/" ++ projectId ++ "/users/" ++ value)
                   (Some value) (Some 40)])
  | None => Returns Undefined
  end.

Definition columns : list Column.t :=
  [ {| Column.accessorKey := "traceId";
       Column.id := "traceId";
       Column.enableColumnFilter := Some true;
       Column.header := "Trace ID";
       Column.enableSorting := Some true;
       Column.enableHiding := None;
       Column.cell := Some traceIdCell |};
    {| Column.accessorKey := "observationId";
       Column.id := "observationId";
       Column.header := "Observation ID";
       Column.enableSorting := Some true;
       Column.enableColumnFilter := None;
       Column.enableHiding := None;
       Column.cell := Some observationIdCell |};
    {| Column.accessorKey := "traceName";
       Column.header := "Trace Name";
       Column.id := "traceName";
       Column.enableHiding := Some true;
       Column.enableSorting := Some true;
       Column.enableColumnFilter := None;
       Column.cell := Some traceNameCell |};
    {| Column.accessorKey := "timestamp";
       Column.header := "Timestamp";
       Column.id := "timestamp";
       Column.enableHiding := Some true;
       Column.enableSorting := Some true;
       Column.enableColumnFilter := None;
       Column.cell := None |};
    {| Column.accessorKey := "name";
       Column.header := "Name";
       Column.id := "name";
       Column.enableHiding := Some true;
       Column.enableSorting := Some true;
       Column.enableColumnFilter := None;
       Column.cell := None |};
    {| Column.accessorKey := "value";
       Column.header := "Value";
       Column.id := "value";
       Column.enableHiding := Some true;
       Column.enableSorting := Some true;
       Column.enableColumnFilter := None;
       Column.cell := Some valueCell |};
    {| Column.accessorKey := "userId";
       Column.header := "User ID";
       Column.id := "userId";
       Column.enableHiding := Some true;
       Column.enableSorting := Some true;
       Column.enableColumnFilter := None;
       Column.cell := Some userIdCell |};
    {| Column.accessorKey := "comment";
       Column.header := "Comment";
       Column.id := "comment";
       Column.enableHiding := Some true;
       Column.enableSorting := None;
       Column.enableColumnFilter := None;
       Column.cell := None |} ].

End Cells.

(** ** Row projection and filterable columns *)

(** [convertToTableRow]; [x ?? undefined] takes [null] to [undefined]. *)
Definition convertToTableRow `{Imports} (score : Score.t) : ScoresTableRow.t :=
  {| ScoresTableRow.id := Some (Score.id score);
     ScoresTableRow.timestamp := Some (toLocaleString (Score.timestamp score));
     ScoresTableRow.name := Some (Score.name score);
     ScoresTableRow.value := Some (Score.value score);
     ScoresTableRow.comment := Score.comment score;
     ScoresTableRow.observationId := Score.observationId score;
     ScoresTableRow.traceId := Some (Score.traceId score);
     ScoresTableRow.traceName := Some (Score.traceName score);
     ScoresTableRow.userId := Score.userId score |}.

(** The destructuring default [omittedFilter = []]. *)
Definition omittedFilter (props : Props.t) : list string :=
  match Props.omittedFilter props with
  | Some l => l
  | None => []
  end.

Definition transformFilterOptions `{Imports} (props : Props.t)
    (traceFilterOptions : option ScoreOptions) : list ColumnDescriptor :=
  List.filter
    (fun c => negb (includes (omittedFilter props) (descriptorName c)))
    (scoresTableColsWithOptions traceFilterOptions).

(** ** What the component renders *)

Module Toolbar.
(** The props of [DataTableToolbar]. *)
Record t `{Imports} : Type := {
  columns : list Column.t;
  filterColumnDefinition : list ColumnDescriptor;
  filterState : FilterState;
  setFilterState : FilterState -> Action;
  columnVisibility : VisibilityState
}.
End Toolbar.

(** The [data] prop of the table: flags, an error message, the rows. *)
Module TableData.
Record t : Type := {
  isLoading : bool;
  isError : bool;
  error : option string;
  data : option (list ScoresTableRow.t)
}.
End TableData.

Module DataTable.
Record Pagination : Type := {
  pageCount : Number.number;
  onChange : PaginationUpdate -> Action;
  state : PaginationState
}.

(** The props of [DataTable]. *)
Record t `{Imports} : Type := {
  columns : list Column.t;
  data : TableData.t;
  pagination : Pagination;
  orderBy : OrderByState;
  setOrderBy : OrderByState -> Action;
  columnVisibility : VisibilityState
}.
End DataTable.

Module View.
Record t `{Imports} : Type := {
  toolbar : Toolbar.t;
  table : DataTable.t
}.
End View.

(** The [data] prop of the table.  Reading [message] of an absent error,
    or [scores] of absent data, throws. *)
Definition tableData `{Imports} (scores : Query.t) : Outcome TableData.t :=
  if Query.isLoading scores
  then Returns {| TableData.isLoading := true; TableData.isError := false;
                  TableData.error := None; TableData.data := None |}
  else if Query.isError scores
  then match Query.error scores with
       | Some e =>
           Returns {| TableData.isLoading := false;
                      TableData.isError := true;
                      TableData.error := Some (Query.message e);
                      TableData.data := None |}
       | None => Throws TypeError
       end
  else match Query.data scores with
       | Some d =>
           Returns {| TableData.isLoading := false;
                      TableData.isError := false;
                      TableData.error := None;
                      TableData.data :=
                        Some (map convertToTableRow (Query.scores d)) |}
       | None => Throws TypeError
       end.

Definition toolbarProps `{Imports} (props : Props.t) (a : AddressSpace)
    (filterOptions : option ScoreOptions)
    (columnVisibility : VisibilityState) : Toolbar.t :=
  {| Toolbar.columns := columns (Props.projectId props);
     Toolbar.filterColumnDefinition :=
       transformFilterOptions props filterOptions;
     Toolbar.filterState := userFilterState a;
     Toolbar.setFilterState := setUserFilterState;
     Toolbar.columnVisibility := columnVisibility |}.

Definition tablePagination `{Imports} (a : AddressSpace) (scores : Query.t)
    : DataTable.Pagination :=
  {| DataTable.pageCount :=
       pageCount (totalCount scores) (pageSize (paginationState a));
     DataTable.onChange := setPaginationState;
     DataTable.state := paginationState a |}.

(** [ScoresTable(props)] given what its hooks return: the address space,
    the state of the scores fetch issued with [scoresQuery props a], the
    data of the filter-options fetch and the column visibility. *)
Definition tableProps `{Imports} (props : Props.t) (a : AddressSpace)
    (scores : Query.t) (data : TableData.t)
    (columnVisibility : VisibilityState) : DataTable.t :=
  {| DataTable.columns := columns (Props.projectId props);
     DataTable.data := data;
     DataTable.pagination := tablePagination a scores;
     DataTable.orderBy := orderByState a;
     DataTable.setOrderBy := setOrderByState;
     DataTable.columnVisibility := columnVisibility |}.

Definition ScoresTable `{Imports} (props : Props.t) (a : AddressSpace)
    (scores : Query.t) (filterOptions : option ScoreOptions)
    (columnVisibility : VisibilityState) : Outcome View.t :=
  let toolbar := toolbarProps props a filterOptions columnVisibility in
  bind (tableData scores) (fun data =>
  Returns
    {| View.toolbar := toolbar;
       View.table := tableProps props a scores data columnVisibility |}).

(** ** Notions the properties are stated with *)

(** The filter sequence the last call of the user filter setter in [acts]
    has put, [init] when there is none. *)
Fixpoint lastSetFilter (acts : list Action) (init : FilterState)
  : FilterState :=
  match acts with
  | [] => init
  | setUserFilterState f :: rest => lastSetFilter rest f
  | _ :: rest => lastSetFilter rest init
  end.

(** The three display states of the [data] prop. *)
Definition loadingState : TableData.t :=
  {| TableData.isLoading := true; TableData.isError := false;
     TableData.error := None; TableData.data := None |}.

Definition errorState (msg : string) : TableData.t :=
  {| TableData.isLoading := false; TableData.isError := true;
     TableData.error := Some msg; TableData.data := None |}.

Definition successState (rows : list ScoresTableRow.t) : TableData.t :=
  {| TableData.isLoading := false; TableData.isError := false;
     TableData.error := None; TableData.data := Some rows |}.

Definition showsLoading (d : TableData.t) : bool :=
  TableData.isLoading d && negb (TableData.isError d)
  && negb (isSome (TableData.error d)) && negb (isSome (TableData.data d)).

Definition showsError (d : TableData.t) : bool :=
  negb (TableData.isLoading d) && TableData.isError d
  && isSome (TableData.error d) && negb (isSome (TableData.data d)).

Definition showsSuccess (d : TableData.t) : bool :=
  negb (TableData.isLoading d) && negb (TableData.isError d)
  && negb (isSome (TableData.error d)) && isSome (TableData.data d).

(** Exactly one of three flags. *)
Definition exactlyOne (b1 b2 b3 : bool) : bool :=
  (b1 && negb b2 && negb b3) || (negb b1 && b2 && negb b3)
  || (negb b1 && negb b2 && b3).

(** The absent markers a cell can return. *)
Definition absent (node : ReactNode) : bool :=
  match node with
  | Undefined | Null => true
  | _ => false
  end.

(** A row none of whose fields is defined but [observationId]. *)
Definition rowOfObservation (observationId : string) : ScoresTableRow.t :=
  {| ScoresTableRow.id := None;
     ScoresTableRow.traceId := None;
     ScoresTableRow.timestamp := None;
     ScoresTableRow.name := None;
     ScoresTableRow.value := None;
     ScoresTableRow.comment := None;
     ScoresTableRow.observationId := Some observationId;
     ScoresTableRow.traceName := None;
     ScoresTableRow.userId := None |}.

(** A row of the declared type but for its value, which is as given. *)
Definition rowWithValue (value : option Number.number) : ScoresTableRow.t :=
  {| ScoresTableRow.id := Some "s1";
     ScoresTableRow.traceId := Some "t1";
     ScoresTableRow.timestamp := Some "1/1/2024, 10:00:00 AM";
     ScoresTableRow.name := Some "accuracy";
     ScoresTableRow.value := value;
     ScoresTableRow.comment := None;
     ScoresTableRow.observationId := None;
     ScoresTableRow.traceName := Some "chat";
     ScoresTableRow.userId := None |}.

(** An instance of the imported definitions, to evaluate the component
    on: dates are strings, descriptors are their names, and the options
    are the descriptor names themselves. *)
Definition sampleImports : Imports :=
  {| Date := string;
     toLocaleString := fun d => d;
     ScoreOptions := list string;
     ColumnDescriptor := string;
     descriptorName := fun c => c;
     scoresTableColsWithOptions :=
       fun o => match o with Some l => l | None => [] end;
     VisibilityState := unit |}.


(** The path of the link a cell returns, alone or in a fragment. *)
Definition linkPath (o : Outcome ReactNode) : option string :=
  match o with
  | Returns (TableLink path _ _) => Some path
  | Returns (Fragment [TableLink path _ _]) => Some path
  | _ => None
  end.

(** The characters of an encoded URI component: the unreserved ones and
    the percent sign of the escapes. *)
Definition uriComponentChar (c : ascii) : bool :=
  uriUnreserved c || Ascii.eqb c "%".

Definition allChars (p : ascii -> bool) (s : string) : bool :=
  forallb p (list_ascii_of_string s).

(** The value of a hexadecimal digit. *)
Definition hexValue (c : ascii) : N :=
  let n := N_of_ascii c in
  (if n <? 58 then n - 48 else n - 55)%N.

(** Reading the escapes of an encoded string back into bytes. *)
Fixpoint percentDecode (s : string) : string :=
  match s with
  | EmptyString => EmptyString
  | String c rest =>
      if Ascii.eqb c "%" then
        match rest with
        | String h (String l rest') =>
            String (ascii_of_N (16 * hexValue h + hexValue l))
                   (percentDecode rest')
        | _ => String c (percentDecode rest)
        end
      else String c (percentDecode rest)
  end.

(** The text before the trace name in the filter of a Trace Name link. *)
Definition traceNameFilterHead : string :=
  "name%3BstringOptions%3B%3Bany%20of%3B".

(** The column of the schema with a given id. *)
Definition columnWithId (projectId id : string) : option Column.t :=
  find (fun c => String.eqb (Column.id c) id) (columns projectId).

(** The column of the schema with a given header. *)
Definition columnWithHeader (projectId header : string) : option Column.t :=
  find (fun c => String.eqb (Column.header c) header) (columns projectId).

(** The pinned condition of the overlay, when there is one. *)
Definition implicitFilter (props : Props.t) : FilterState :=
  match Props.userId props with
  | Some userId => if truthy (Some userId) then [userIdFilter userId] else []
  | None => []
  end.

(** The string that holds the lone surrogate [U+D800] and nothing else. *)
Definition loneSurrogate : string :=
  String (ascii_of_N 237)
    (String (ascii_of_N 160) (String (ascii_of_N 128) EmptyString)).

(** A row of the declared type with the given trace name. *)
Definition rowWithTraceName (traceName : option string) : ScoresTableRow.t :=
  {| ScoresTableRow.id := Some "s1";
     ScoresTableRow.traceId := Some "t1";
     ScoresTableRow.timestamp := Some "1/1/2024, 10:00:00 AM";
     ScoresTableRow.name := Some "accuracy";
     ScoresTableRow.value := Some (Number.of_Z 1);
     ScoresTableRow.comment := None;
     ScoresTableRow.observationId := None;
     ScoresTableRow.traceName := traceName;
     ScoresTableRow.userId := None |}.

(** A score to evaluate the projection on. *)
Definition sampleScore (value : Number.number)
    (observationId userId : option string) : @Score.t sampleImports :=
  @Score.Build_t sampleImports
    "s1" "1/1/2024, 10:00:00 AM" "accuracy" value None observationId
    "t1" "chat" userId.

(** * Properties *)

(** ** Numbers and their strings *)

Module NumberFacts.
Import Number.

(** *** Binary digits *)

Lemma digits2_pos_bounds (m : positive) :
  2 ^ (Zpos (digits2_pos m) - 1) <= Zpos m < 2 ^ Zpos (digits2_pos m).
Proof.
  induction m as [m IH|m IH|]; cbn [digits2_pos].
  - rewrite Pos2Z.inj_succ.
    replace (Z.succ (Zpos (digits2_pos m)) - 1)
      with (Z.succ (Zpos (digits2_pos m) - 1)) by lia.
    rewrite !Z.pow_succ_r by lia. lia.
  - rewrite Pos2Z.inj_succ.
    replace (Z.succ (Zpos (digits2_pos m)) - 1)
      with (Z.succ (Zpos (digits2_pos m) - 1)) by lia.
    rewrite !Z.pow_succ_r by lia. lia.
  - cbn. lia.
Qed.

Lemma digits2_pos_le (r m : positive) :
  (r <= m)%positive -> (digits2_pos r <= digits2_pos m)%positive.
Proof.
  intros Hle.
  pose proof (digits2_pos_bounds r) as [Hr _].
  pose proof (digits2_pos_bounds m) as [_ Hm].
  assert (2 ^ (Zpos (digits2_pos r) - 1) < 2 ^ Zpos (digits2_pos m)) as Hlt
    by lia.
  apply Z.pow_lt_mono_r_iff in Hlt; lia.
Qed.

Lemma digits2_pos_shift (m d : positive) :
  digits2_pos (Pos.iter xO m d) = (digits2_pos m + d)%positive.
Proof.
  induction d as [|d IH] using Pos.peano_ind.
  - cbn. lia.
  - rewrite Pos.iter_succ. cbn [digits2_pos]. rewrite IH. lia.
Qed.

(** *** Valid finite numbers *)

Lemma valid_finite_bounds (s : bool) (m : positive) (e : Z) :
  valid (S754_finite s m e) = true ->
  Zpos m < 2 ^ 53
  /\ -1074 <= e
  /\ fexp prec emax (Zpos (digits2_pos m) + e) = e.
Proof.
  unfold valid, valid_binary, bounded, canonical_mantissa.
  intros H. apply andb_prop in H as [Hc _]. apply Z.eqb_eq in Hc.
  pose proof (digits2_pos_bounds m) as [_ Hm].
  unfold fexp, emin, prec, emax in *.
  assert (Zpos (digits2_pos m) <= 53) as Hd by lia.
  repeat split; [|lia|exact Hc].
  apply Z.lt_le_trans with (1 := Hm).
  apply Z.pow_le_mono_r; lia.
Qed.

(** *** The remainder test *)

Lemma round_aux_exact (s : bool) (m : positive) (e : Z) :
  fexp prec emax (Zpos (digits2_pos m) + e) = e ->
  binary_round_aux prec emax s (Zpos m) e loc_Exact
  = if e <=? emax - prec then S754_finite s m e else S754_infinity s.
Proof.
  intros Hc. unfold binary_round_aux, shr_fexp.
  cbn [Zdigits2 shr_record_of_loc]. rewrite Hc, Z.sub_diag.
  cbn [shr shr_m loc_of_shr_record round_nearest_even Zdigits2].
  rewrite Hc, Z.sub_diag. reflexivity.
Qed.

Lemma binary_round_exact (s : bool) (m : positive) (e : Z) :
  fexp prec emax (Zpos (digits2_pos m) + e) <= e ->
  exists m' e',
    binary_round prec emax s m e
    = if e' <=? emax - prec then S754_finite s m' e' else S754_infinity s.
Proof.
  intros Hle. unfold binary_round, shl_align.
  destruct (fexp prec emax (Zpos (digits2_pos m) + e) - e) as [|d|d] eqn:Hd.
  - exists m, e. apply round_aux_exact. lia.
  - lia.
  - exists (Pos.iter xO m d), (fexp prec emax (Zpos (digits2_pos m) + e)).
    apply round_aux_exact.
    rewrite digits2_pos_shift, Pos2Z.inj_add.
    f_equal. lia.
Qed.

Lemma strict_eq_zero_round (s : bool) (m : positive) (e : Z) :
  fexp prec emax (Zpos (digits2_pos m) + e) <= e ->
  strict_eq (binary_round prec emax s m e) zero = false.
Proof.
  intros Hle. destruct (binary_round_exact s m e Hle) as [m' [e' ->]].
  destruct (e' <=? emax - prec), s; reflexivity.
Qed.

Lemma fexp_mono (x y : Z) : x <= y -> fexp prec emax x <= fexp prec emax y.
Proof. unfold fexp. lia. Qed.

(** [x % 1 === 0] holds exactly for the integers. *)
Lemma rem1_zero_iff_integral (x : number) :
  valid x = true -> strict_eq (rem1 x) zero = integral x.
Proof.
  destruct x as [s|s| |s m e]; try reflexivity.
  intros Hv. apply valid_finite_bounds in Hv as [Hm [He Hc]].
    cbn [rem1 integral].
    destruct (Z.leb_spec 0 e) as [H0|H0]; [now destruct s|].
    cbn [orb].
    assert (0 < 2 ^ (- e)) as Hp by (apply Z.pow_pos_nonneg; lia).
    pose proof (Z.mod_pos_bound (Zpos m) (2 ^ (- e)) Hp) as Hb.
    destruct (Z.eqb_spec (Zpos m mod 2 ^ (- e)) 0) as [E|E].
    + rewrite E. now destruct s.
    + destruct (Zpos m mod 2 ^ (- e)) as [|r|r] eqn:Er; try lia.
      assert (r <= m)%positive as Hrm.
      { pose proof (Z.mod_le (Zpos m) (2 ^ (- e)) ltac:(lia) Hp). lia. }
      assert (fexp prec emax (Zpos (digits2_pos r) + e) <= e) as Hf.
      { rewrite <- Hc at 2. apply fexp_mono.
        pose proof (digits2_pos_le r m Hrm). lia. }
      destruct s; cbn [cond_Zopp Z.opp binary_normalize];
        now apply strict_eq_zero_round.
Qed.

(** *** Strings of digits *)

Lemma length_append (s t : string) :
  String.length (s ++ t) = (String.length s + String.length t)%nat.
Proof. induction s as [|c s IH]; cbn; [reflexivity | now rewrite IH]. Qed.

Lemma length_zeros (k : nat) : String.length (zeros k) = k.
Proof. induction k as [|k IH]; cbn; [reflexivity | now rewrite IH]. Qed.

Lemma substring_whole (s : string) : substring 0 (String.length s) s = s.
Proof. induction s as [|c s IH]; cbn; [reflexivity | now rewrite IH]. Qed.

(** A string is its first [i] characters followed by the rest. *)
Lemma substring_split (s : string) (i j : nat) :
  (i + j)%nat = String.length s ->
  substring 0 i s ++ substring i j s = s
  /\ String.length (substring 0 i s) = i
  /\ String.length (substring i j s) = j.
Proof.
  revert s. induction i as [|i IH]; intros s Hl.
  - cbn [Nat.add] in Hl. subst j. rewrite substring_whole.
    destruct s; cbn; auto.
  - destruct s as [|c s]; [discriminate|].
    cbn [String.length] in Hl. injection Hl as Hl.
    destruct (IH s Hl) as [E [L1 L2]].
    cbn [substring append String.length].
    rewrite E, L1. auto.
Qed.

Lemma digits_natValue (n : N) : natValue (digits n) = Some n.
Proof.
  unfold natValue, digits, NilZero.string_of_uint.
  destruct (N.to_uint n) eqn:E.
  1: { destruct n as [|p]; [discriminate|].
       now apply DecimalPos.Unsigned.to_uint_nonnil in E. }
  all: rewrite <- E, NilEmpty.usu; cbn [option_map];
    now rewrite DecimalN.Unsigned.of_to.
Qed.

Lemma zeros_natValue (k : nat) (s : string) :
  natValue (zeros k ++ s) = natValue s.
Proof.
  unfold natValue. induction k as [|k IH]; [reflexivity|].
  cbn [zeros append NilEmpty.uint_of_string].
  destruct (NilEmpty.uint_of_string (zeros k ++ s)) as [d|];
    destruct (NilEmpty.uint_of_string s) as [d'|];
    cbn [uint_of_char option_map] in *; unfold N.of_uint in *;
    cbn [Pos.of_uint]; congruence.
Qed.

Lemma nzhead_no_zero (d : Decimal.uint) :
  match Decimal.nzhead d with
  | Decimal.D0 _ => False
  | _ => True
  end.
Proof. induction d; cbn; auto. Qed.

(** The digits of a number are the one digit [0] or start with another
    digit. *)
Lemma digits_shape (n : N) :
  digits n = "0"
  \/ exists c rest, digits n = String c rest /\ Ascii.eqb c "0" = false.
Proof.
  unfold digits.
  assert (E : N.to_uint n = Decimal.unorm (N.to_uint n)).
  { rewrite <- (DecimalN.Unsigned.of_to n) at 1.
    apply DecimalN.Unsigned.to_of. }
  rewrite E. unfold Decimal.unorm.
  pose proof (nzhead_no_zero (N.to_uint n)) as H.
  destruct (Decimal.nzhead (N.to_uint n)); try (now left);
    try contradiction; right; cbn; eauto.
Qed.

(** The string of [toFixed] for the scaled integer [n]: the plain
    numeral of the integer part, a point, [f] digits, and [n] is the
    number the digits denote. *)
Lemma point_string_fixedPoint (f : nat) (n : N) :
  (0 < f)%nat -> fixedPoint f (point_string f n) false n.
Proof.
  intros Hf. unfold point_string.
  destruct f as [|f']; [lia|]. set (f := S f') in *.
  set (m := if (String.length (digits n) <=? f)%nat
            then zeros (f + 1 - String.length (digits n)) ++ digits n
            else digits n).
  assert (Hm : natValue m = Some n).
  { unfold m. destruct (_ <=? _)%nat;
      [rewrite zeros_natValue|]; apply digits_natValue. }
  assert (Hl : (f < String.length m)%nat
               /\ plainInteger (substring 0 (String.length m - f) m) = true).
  { unfold m. destruct (Nat.leb_spec (String.length (digits n)) f) as [H|H].
    - rewrite length_append, length_zeros.
      replace (f + 1 - String.length (digits n)
               + String.length (digits n) - f)%nat with 1%nat by lia.
      split; [lia|].
      destruct (f + 1 - String.length (digits n))%nat as [|k] eqn:Ek; [lia|].
      cbn [zeros append substring plainInteger].
      destruct (zeros k ++ digits n); reflexivity.
    - split; [exact H|].
      destruct (digits_shape n) as [E|[c [rest [E Hc]]]].
      + rewrite E in H. cbn in H. lia.
      + rewrite E in *. cbn [String.length] in *.
        destruct (S (String.length rest) - f)%nat as [|i] eqn:Ei; [lia|].
        cbn [substring plainInteger]. now rewrite Hc. }
  destruct Hl as [Hl Hplain].
  destruct (substring_split m (String.length m - f) f ltac:(lia))
    as [E [L1 L2]].
  exists (substring 0 (String.length m - f) m),
         (substring (String.length m - f) f m).
  repeat split.
  - exact Hplain.
  - exact L2.
  - now rewrite E.
Qed.

Lemma fixedPoint_negative (f : nat) (s : string) (n : N) :
  fixedPoint f s false n -> fixedPoint f ("-" ++ s) true n.
Proof.
  intros [a [b [E H]]]. exists a, b. split; [|exact H].
  now rewrite E.
Qed.

(** A fixed-point numeral has a point in it. *)
Lemma fixedPoint_has_point (f : nat) (s : string) (negative : bool) (n : N) :
  fixedPoint f s negative n -> In "."%char (list_ascii_of_string s).
Proof.
  intros [a [b [-> _]]].
  assert (forall x y, In "."%char (list_ascii_of_string y) ->
                      In "."%char (list_ascii_of_string (x ++ y))) as Happ.
  { intros x y Hy. induction x as [|c x IH]; cbn; auto. }
  apply Happ, Happ. cbn. auto.
Qed.

(** *** Rounding to a multiple of [10^-f] *)

Lemma nearest_scaled_bounds (f : nat) (m : positive) (e : Z) :
  e < 0 ->
  0 <= nearest_scaled f m e
  /\ - 2 ^ (- e)
     < 2 * (nearest_scaled f m e * 2 ^ (- e) - Zpos m * 10 ^ Z.of_nat f)
     <= 2 ^ (- e).
Proof.
  intros He. unfold nearest_scaled.
  destruct (Z.leb_spec 0 e) as [H|_]; [lia|].
  assert (0 < 2 ^ (- e)) as Hd by (apply Z.pow_pos_nonneg; lia).
  assert (0 < 10 ^ Z.of_nat f) as Hp by (apply Z.pow_pos_nonneg; lia).
  set (d := 2 ^ (- e)) in *. set (p := 10 ^ Z.of_nat f) in *.
  pose proof (Z.div_mod (2 * (Zpos m * p) + d) (2 * d) ltac:(lia)) as E.
  pose proof (Z.mod_pos_bound (2 * (Zpos m * p) + d) (2 * d) ltac:(lia)) as B.
  split.
  - apply Z.div_pos; nia.
  - nia.
Qed.

(** A number that is not an integer is below [2^53] in magnitude. *)
Lemma fraction_below_1e21 (s : bool) (m : positive) (e : Z) :
  valid (S754_finite s m e) = true ->
  integral (S754_finite s m e) = false ->
  e < 0 /\ at_least_1e21 m e = false.
Proof.
  intros Hv Hi. apply valid_finite_bounds in Hv as [Hm _].
  cbn [integral] in Hi. apply orb_false_iff in Hi as [He _].
  apply Z.leb_gt in He. split; [exact He|].
  unfold at_least_1e21. rewrite (proj2 (Z.leb_gt 0 e) He).
  apply Z.leb_gt.
  assert (1 <= 2 ^ (- e)) by (apply (Z.pow_le_mono_r 2 0 (- e)); lia).
  assert (2 ^ 53 < 10 ^ 21) by (vm_compute; reflexivity).
  nia.
Qed.

(** The string of an integer up to [2^53] is its sign and digits. *)
Lemma toString_integer (x : number) :
  integral x = true ->
  exists k : Z,
    toZ x = Some k
    /\ (Z.abs k <= 2 ^ 53 ->
        toString x = Some (minus (k <? 0) ++ digits (Z.to_N (Z.abs k)))).
Proof.
  destruct x as [s|s| |s m e]; try discriminate.
  - intros _. exists 0. split; reflexivity.
  - cbn [integral toZ toString]. intros Hi.
    assert (exists j, integerValue m e = Some j /\ 0 < j) as [j [Ej Hj]].
    { unfold integerValue.
      destruct (Z.leb_spec 0 e) as [He|He].
      - exists (Zpos m * 2 ^ e). split; [reflexivity|].
        assert (0 < 2 ^ e) by (apply Z.pow_pos_nonneg; lia). nia.
      - cbn [orb] in Hi. rewrite Hi. apply Z.eqb_eq in Hi.
        assert (0 < 2 ^ (- e)) as Hd by (apply Z.pow_pos_nonneg; lia).
        exists (Zpos m / 2 ^ (- e)).
        pose proof (Z.div_mod (Zpos m) (2 ^ (- e)) ltac:(lia)) as E.
        rewrite Hi, Z.add_0_r in E.
        split; [reflexivity | nia]. }
    rewrite Ej. cbn [option_map].
    exists (cond_Zopp s j). split; [reflexivity|].
    intros Hk.
    assert (Z.abs (cond_Zopp s j) = j) as Eabs by (destruct s; cbn; lia).
    rewrite Eabs in *.
    rewrite (proj2 (Z.leb_le j (2 ^ 53)) Hk).
    replace (cond_Zopp s j <? 0) with s; [reflexivity|].
    destruct s; cbn; symmetry; [apply Z.ltb_lt | apply Z.ltb_ge]; lia.
Qed.

(** *** The quotient of two integers and its ceiling *)

Lemma ceiling_bounds (n d : Z) :
  0 < d -> (- ((- n) / d) - 1) * d < n <= - ((- n) / d) * d.
Proof.
  intros Hd.
  pose proof (Z.div_mod (- n) d ltac:(lia)) as E.
  pose proof (Z.mod_pos_bound (- n) d Hd) as B.
  nia.
Qed.

Lemma digits2_pos_eq (p : positive) (d : Z) :
  0 < d -> 2 ^ (d - 1) <= Zpos p < 2 ^ d -> Zpos (digits2_pos p) = d.
Proof.
  intros Hd [Hlo Hhi].
  pose proof (digits2_pos_bounds p) as [Plo Phi].
  destruct (Z.lt_trichotomy (Zpos (digits2_pos p)) d) as [H|[H|H]];
    [exfalso | exact H | exfalso].
  - assert (2 ^ Zpos (digits2_pos p) <= 2 ^ (d - 1))
      by (apply Z.pow_le_mono_r; lia).
    lia.
  - assert (2 ^ d <= 2 ^ (Zpos (digits2_pos p) - 1))
      by (apply Z.pow_le_mono_r; lia).
    lia.
Qed.

Lemma iter_xO_value (m d : positive) :
  Zpos (Pos.iter xO m d) = Zpos m * 2 ^ Zpos d.
Proof.
  induction d as [|d IH] using Pos.peano_ind.
  - cbn. lia.
  - rewrite Pos.iter_succ, Pos2Z.inj_xO, IH, Pos2Z.inj_succ.
    rewrite Z.pow_succ_r by lia. lia.
Qed.

(** An integer below [2^53] is a number: its mantissa is the integer
    shifted to 53 bits. *)
Lemma of_Z_safe (p : positive) :
  Zpos p < 2 ^ 53 ->
  exists (m : positive) (e : Z),
    (forall s, binary_round prec emax s p 0 = S754_finite s m e)
    /\ Zpos m = Zpos p * 2 ^ (- e)
    /\ -52 <= e <= 0
    /\ 2 ^ 52 <= Zpos m < 2 ^ 53.
Proof.
  intros Hp.
  pose proof (digits2_pos_bounds p) as [Plo Phi].
  assert (Hd : Zpos (digits2_pos p) <= 53).
  { destruct (Z.le_gt_cases (Zpos (digits2_pos p)) 53) as [H|H]; [exact H|].
    assert (2 ^ 53 <= 2 ^ (Zpos (digits2_pos p) - 1))
      by (apply Z.pow_le_mono_r; lia).
    lia. }
  assert (Hf : fexp prec emax (Zpos (digits2_pos p) + 0)
               = Zpos (digits2_pos p) - 53).
  { unfold fexp, emin, prec, emax. lia. }
  unfold binary_round, shl_align. rewrite Hf.
  destruct (Zpos (digits2_pos p) - 53 - 0) as [|d|d] eqn:Ed; try lia.
  - exists p, 0. split; [|split; [|split]].
    + intros s. rewrite round_aux_exact by (rewrite Hf; lia).
      reflexivity.
    + cbn. lia.
    + lia.
    + replace (Zpos (digits2_pos p)) with 53 in * by lia.
      split; [exact Plo | exact Hp].
  - exists (Pos.iter xO p d), (Zpos (digits2_pos p) - 53).
    assert (Hdd : Zpos (digits2_pos (Pos.iter xO p d)) = 53).
    { rewrite digits2_pos_shift, Pos2Z.inj_add. lia. }
    split; [|split; [|split]].
    + intros s. rewrite round_aux_exact.
      * unfold prec, emax.
        destruct (Z.leb_spec (Zpos (digits2_pos p) - 53) (1024 - 53));
          [reflexivity | lia].
      * rewrite Hdd. unfold fexp, emin, prec, emax. lia.
    + rewrite iter_xO_value. f_equal. f_equal. lia.
    + lia.
    + pose proof (digits2_pos_bounds (Pos.iter xO p d)) as B.
      rewrite Hdd in B. exact B.
Qed.

Lemma new_location_spec (n r : Z) :
  0 < n -> 0 <= r < n ->
  match new_location n r with
  | loc_Exact => r = 0
  | loc_Inexact Lt => 0 < 2 * r < n
  | loc_Inexact Eq => 0 < r /\ 2 * r = n
  | loc_Inexact Gt => n < 2 * r
  end.
Proof.
  intros Hn Hr. unfold new_location, new_location_even, new_location_odd.
  destruct (Z.even n) eqn:En; destruct (Z.eqb_spec r 0) as [E|E];
    try exact E.
  - destruct (Z.compare_spec (2 * r) n); lia.
  - assert (n <> 2 * r) as Hodd.
    { intros ->. rewrite Z.even_mul in En. discriminate. }
    destruct (Z.compare_spec (2 * r + 1) n) as [H|H|H]; lia.
Qed.

Lemma shr_fexp_53 (m : positive) (e : Z) (l : location) :
  2 ^ 52 <= Zpos m < 2 ^ 53 -> -1074 <= e ->
  shr_fexp prec emax (Zpos m) e l = (shr_record_of_loc (Zpos m) l, e).
Proof.
  intros Hm He. unfold shr_fexp. cbn [Zdigits2].
  rewrite (digits2_pos_eq m 53) by (cbn; lia).
  replace (fexp prec emax (53 + e) - e) with 0
    by (unfold fexp, emin, prec, emax; lia).
  reflexivity.
Qed.

Lemma shr_fexp_54 (m : positive) (e : Z) (l : location) :
  2 ^ 53 <= Zpos m < 2 ^ 54 -> -1074 <= e ->
  shr_fexp prec emax (Zpos m) e l
  = (shr_1 (shr_record_of_loc (Zpos m) l), e + 1).
Proof.
  intros Hm He. unfold shr_fexp. cbn [Zdigits2].
  rewrite (digits2_pos_eq m 54) by (cbn; lia).
  replace (fexp prec emax (54 + e) - e) with 1
    by (unfold fexp, emin, prec, emax; lia).
  reflexivity.
Qed.

(** The last step of a rounding: a mantissa of 53 bits is kept, and
    [2^53] becomes [2^52] with the next exponent. *)
Lemma round_aux_carry (s : bool) (m : positive) (e : Z) :
  2 ^ 52 <= Zpos m <= 2 ^ 53 -> -1074 <= e <= 900 ->
  exists (m' : positive) (e' : Z),
    (let '(mrs, e'') := shr_fexp prec emax (Zpos m) e loc_Exact in
     match shr_m mrs with
     | Z0 => S754_zero s
     | Zpos m0 => if e'' <=? emax - prec then S754_finite s m0 e''
                  else S754_infinity s
     | Zneg _ => S754_nan
     end) = S754_finite s m' e'
    /\ ((m' = m /\ e' = e)
        \/ (Zpos m = 2 ^ 53 /\ Zpos m' = 2 ^ 52 /\ e' = e + 1)).
Proof.
  intros Hm He.
  destruct (Z.eq_dec (Zpos m) (2 ^ 53)) as [E|E].
  - rewrite shr_fexp_54 by lia.
    assert (m = 9007199254740992%positive) as -> by (cbn in E; lia).
    exists 4503599627370496%positive, (e + 1).
    cbn [shr_record_of_loc shr_1 shr_m].
    unfold prec, emax.
    destruct (Z.leb_spec (e + 1) (1024 - 53)); [|lia].
    split; [reflexivity | right; repeat split].
  - rewrite shr_fexp_53 by lia.
    exists m, e. cbn [shr_record_of_loc shr_m].
    unfold prec, emax.
    destruct (Z.leb_spec e (1024 - 53)); [|lia].
    split; [reflexivity | now left].
Qed.

(** The rounding of a quotient [q + r/d] of 53 or 54 bits: the result is
    a mantissa [mr] of 53 bits, or [2^53], at the exponent raised by the
    number [n] of bits dropped, and it is within half a unit of the
    quotient. *)
Lemma round_aux_quotient (s : bool) (q : positive) (e r d : Z)
    (l : location) :
  0 < d -> 0 <= r < d -> locates l r d ->
  2 ^ 52 <= Zpos q < 2 ^ 54 -> -1074 <= e <= 899 ->
  exists (mr m : positive) (n e' : Z),
    binary_round_aux prec emax s (Zpos q) e l = S754_finite s m e'
    /\ (n = 0 \/ n = 1)
    /\ 2 ^ 52 * 2 ^ n <= Zpos q
    /\ 2 ^ 52 <= Zpos mr <= 2 ^ 53
    /\ ((m = mr /\ e' = e + n)
        \/ (Zpos mr = 2 ^ 53 /\ Zpos m = 2 ^ 52 /\ e' = e + n + 1))
    /\ 2 * Z.abs (Zpos mr * 2 ^ n * d - (Zpos q * d + r)) <= 2 ^ n * d.
Proof.
  intros Hd Hr Hl Hq He. unfold binary_round_aux.
  destruct (Z.lt_ge_cases (Zpos q) (2 ^ 53)) as [Hlt|Hge].
  - (* 53 bits: nothing is dropped *)
    rewrite shr_fexp_53 by lia.
    assert (Hloc : loc_of_shr_record (shr_record_of_loc (Zpos q) l) = l)
      by (destruct l as [|[| |]]; reflexivity).
    rewrite Hloc.
    replace (shr_m (shr_record_of_loc (Zpos q) l)) with (Zpos q)
      by (destruct l as [|[| |]]; reflexivity).
    assert (Hup : Zpos q + 1 = Zpos (q + 1)) by reflexivity.
    assert (exists mr : positive,
               round_nearest_even (Zpos q) l = Zpos mr
               /\ 2 ^ 52 <= Zpos mr <= 2 ^ 53
               /\ 2 * Z.abs (Zpos mr * d - (Zpos q * d + r)) <= d)
      as [mr [Emr [Bmr Dmr]]].
    { destruct l as [|[| |]]; cbn [round_nearest_even locates] in *.
      - exists q. repeat split; lia.
      - destruct (Z.even (Zpos q)).
        + exists q. repeat split; lia.
        + exists (q + 1)%positive. repeat split; lia.
      - exists q. repeat split; lia.
      - exists (q + 1)%positive. repeat split; lia. }
    rewrite Emr.
    destruct (round_aux_carry s mr e Bmr ltac:(lia)) as [m [e' [Hres Hme]]].
    exists mr, m, 0, e'. rewrite Hres.
    split; [reflexivity|]. split; [now left|].
    split; [lia|]. split; [exact Bmr|].
    split; [rewrite Z.add_0_r; exact Hme|].
    rewrite Z.pow_0_r, Z.mul_1_r, Z.mul_1_l. exact Dmr.
  - (* 54 bits: the last bit is dropped *)
    rewrite shr_fexp_54 by lia.
    assert (exists (h : positive) (b : bool) (mr : positive),
               Zpos q = 2 * Zpos h + (if b then 1 else 0)
               /\ (let mrs := shr_1 (shr_record_of_loc (Zpos q) l) in
                   round_nearest_even (shr_m mrs) (loc_of_shr_record mrs))
                  = Zpos mr
               /\ 2 ^ 52 <= Zpos mr <= 2 ^ 53
               /\ 2 * Z.abs (Zpos mr * 2 * d - (Zpos q * d + r)) <= 2 * d)
      as [h [b [mr [Eq [Emr [Bmr Dmr]]]]]].
    { destruct q as [h|h|]; [| |cbn in Hge; lia].
      - (* odd *)
        exists h, true.
        destruct l as [|[| |]]; cbn [shr_record_of_loc shr_1 shr_m orb
          loc_of_shr_record round_nearest_even locates] in *.
        + destruct (Z.even (Zpos h)).
          * exists h. repeat split; lia.
          * exists (h + 1)%positive. repeat split; lia.
        + exists (h + 1)%positive. repeat split; lia.
        + exists (h + 1)%positive. repeat split; lia.
        + exists (h + 1)%positive. repeat split; lia.
      - (* even *)
        exists h, false.
        destruct l as [|[| |]]; cbn [shr_record_of_loc shr_1 shr_m orb
          loc_of_shr_record round_nearest_even locates] in *.
        + exists h. repeat split; lia.
        + exists h. repeat split; lia.
        + exists h. repeat split; lia.
        + exists h. repeat split; lia. }
    cbv zeta in Emr. rewrite Emr.
    destruct (round_aux_carry s mr (e + 1) Bmr ltac:(lia))
      as [m [e' [Hres Hme]]].
    exists mr, m, 1, e'. rewrite Hres.
    split; [reflexivity|]. split; [now right|].
    split; [lia|]. split; [exact Bmr|].
    split; [exact Hme|].
    rewrite Z.pow_1_r. lia.
Qed.

(** The quotient of two numbers with mantissas of 53 bits and exponents
    of integers below [2^53]. *)
Lemma SFdiv_quotient (sx sy : bool) (mx my : positive) (ex ey : Z) :
  2 ^ 52 <= Zpos mx < 2 ^ 53 -> 2 ^ 52 <= Zpos my < 2 ^ 53 ->
  -52 <= ex <= 0 -> -52 <= ey <= 0 ->
  exists (mr m : positive) (n e' : Z),
    SFdiv prec emax (S754_finite sx mx ex) (S754_finite sy my ey)
    = S754_finite (xorb sx sy) m e'
    /\ (n = 0 \/ n = 1)
    /\ 2 ^ 52 <= Zpos mr <= 2 ^ 53
    /\ ((m = mr /\ e' = ex - ey - 53 + n)
        \/ (Zpos mr = 2 ^ 53 /\ Zpos m = 2 ^ 52
            /\ e' = ex - ey - 53 + n + 1))
    /\ 2 ^ 52 * 2 ^ n * Zpos my <= Zpos mx * 2 ^ 53
    /\ 2 * Z.abs (Zpos mr * 2 ^ n * Zpos my - Zpos mx * 2 ^ 53)
       <= 2 ^ n * Zpos my.
Proof.
  intros Hx Hy Hex Hey.
  unfold SFdiv, SFdiv_core_binary. cbn [Zdigits2].
  rewrite (digits2_pos_eq mx 53), (digits2_pos_eq my 53) by (cbn; lia).
  replace (Z.min (fexp prec emax (53 + ex - (53 + ey))) (ex - ey))
    with (ex - ey - 53) by (unfold fexp, emin, prec, emax; lia).
  replace (ex - ey - (ex - ey - 53)) with 53 by lia.
  rewrite Z.shiftl_mul_pow2 by lia.
  pose proof (Z_div_mod (Zpos mx * 2 ^ 53) (Zpos my) ltac:(lia)) as Hdiv.
  destruct (Z.div_eucl (Zpos mx * 2 ^ 53) (Zpos my)) as [q r].
  destruct Hdiv as [Eq Hr].
  assert (Hq : 2 ^ 52 <= q < 2 ^ 54) by nia.
  destruct q as [|q|q]; try lia.
  pose proof (new_location_spec (Zpos my) r ltac:(lia) Hr) as Hl.
  destruct (round_aux_quotient (xorb sx sy) q (ex - ey - 53) r (Zpos my)
              (new_location (Zpos my) r) ltac:(lia) Hr Hl Hq ltac:(lia))
    as [mr [m [n [e' [Hres [Hn [Hqn [Bmr [Hme Hnear]]]]]]]]].
  exists mr, m, n, e'. rewrite Hres.
  split; [reflexivity|]. split; [exact Hn|]. split; [exact Bmr|].
  split; [exact Hme|].
  replace (Zpos mx * 2 ^ 53) with (Zpos q * Zpos my + r) by lia.
  split; [nia | exact Hnear].
Qed.

Lemma ceiling_unique (a d c : Z) :
  0 < d -> (c - 1) * d < a <= c * d -> - ((- a) / d) = c.
Proof.
  intros Hd H.
  pose proof (ceiling_bounds a d Hd) as B.
  nia.
Qed.

Lemma of_Z_53 (s : bool) (m : positive) :
  2 ^ 52 <= Zpos m < 2 ^ 53 ->
  binary_round prec emax s m 0 = S754_finite s m 0.
Proof.
  intros Hm.
  assert (Hd := digits2_pos_eq m 53 ltac:(lia) ltac:(cbn; lia)).
  unfold binary_round, shl_align. rewrite Hd.
  replace (fexp prec emax (53 + 0) - 0) with 0
    by (unfold fexp, emin, prec, emax; lia).
  rewrite round_aux_exact; [reflexivity|].
  rewrite Hd. unfold fexp, emin, prec, emax. lia.
Qed.

(** The scaled statement of [SFdiv_quotient] for two integers: with
    [g = 2^-e0] the rounded mantissa [mr] is within half a unit of
    [t * g / s], and [t * g / s] has 53 bits at least. *)
Lemma quotient_of_integers (sx sy : bool) (t s : positive) :
  Zpos t < 2 ^ 53 -> Zpos s < 2 ^ 53 ->
  exists (mr m : positive) (e0 e' : Z),
    div (binary_round prec emax sx t 0) (binary_round prec emax sy s 0)
    = S754_finite (xorb sx sy) m e'
    /\ e0 <= 0
    /\ 2 ^ 52 <= Zpos mr <= 2 ^ 53
    /\ ((m = mr /\ e' = e0)
        \/ (Zpos mr = 2 ^ 53 /\ Zpos m = 2 ^ 52 /\ e' = e0 + 1))
    /\ 2 ^ 52 * Zpos s <= Zpos t * 2 ^ (- e0)
    /\ 2 * Z.abs (Zpos mr * Zpos s - Zpos t * 2 ^ (- e0)) <= Zpos s.
Proof.
  intros Ht Hs.
  destruct (of_Z_safe t Ht) as [mx [ex [Ex [Vx [Bex Bmx]]]]].
  destruct (of_Z_safe s Hs) as [my [ey [Ey [Vy [Bey Bmy]]]]].
  unfold div. rewrite Ex, Ey.
  destruct (SFdiv_quotient sx sy mx my ex ey Bmx Bmy Bex Bey)
    as [mr [m [n [e' [Hres [Hn [Bmr [Hme [Hbig Hnear]]]]]]]]].
  exists mr, m, (ex - ey - 53 + n), e'.
  split; [exact Hres|]. split; [lia|]. split; [exact Bmr|].
  split; [exact Hme|].
  set (a := 2 ^ n * 2 ^ (- ey)).
  assert (Ha : 0 < a).
  { unfold a. apply Z.mul_pos_pos; apply Z.pow_pos_nonneg; lia. }
  assert (Hg : 2 ^ (- (ex - ey - 53 + n)) * a = 2 ^ (- ex) * 2 ^ 53).
  { unfold a. rewrite <- !Z.pow_add_r by lia. f_equal. lia. }
  set (g := 2 ^ (- (ex - ey - 53 + n))) in *.
  assert (E1 : Zpos mx * 2 ^ 53 = Zpos t * g * a).
  { rewrite Vx. rewrite <- !Z.mul_assoc. rewrite Hg. reflexivity. }
  assert (E2 : 2 ^ n * Zpos my = Zpos s * a).
  { rewrite Vy. unfold a. ring. }
  split.
  - replace (2 ^ 52 * 2 ^ n * Zpos my) with (2 ^ 52 * Zpos s * a) in Hbig
      by (rewrite <- (Z.mul_assoc (2 ^ 52) (2 ^ n)), E2; ring).
    rewrite E1 in Hbig.
    apply Z.mul_le_mono_pos_r in Hbig; [exact Hbig | exact Ha].
  - replace (Zpos mr * 2 ^ n * Zpos my) with (Zpos mr * Zpos s * a) in Hnear
      by (rewrite <- (Z.mul_assoc (Zpos mr) (2 ^ n)), E2; ring).
    rewrite E1, E2 in Hnear.
    rewrite <- Z.mul_sub_distr_r, Z.abs_mul, (Z.abs_eq a) in Hnear by lia.
    rewrite Z.mul_assoc in Hnear.
    apply Z.mul_le_mono_pos_r in Hnear; [exact Hnear | exact Ha].
Qed.

(** A mantissa within half a unit of [t * g / s] lies between the same
    integers as [t / s], scaled by [g], when [t] is below [2^53]. *)
Lemma nearest_same_ceiling (mr t s g : Z) :
  0 < s -> 0 < g -> 0 < t < 2 ^ 53 ->
  2 ^ 52 * s <= t * g -> 2 * Z.abs (mr * s - t * g) <= s ->
  (- ((- t) / s) - 1) * g < mr <= - ((- t) / s) * g.
Proof.
  intros Hs Hg Ht Hbig Hnear.
  pose proof (ceiling_bounds t s Hs) as B.
  set (c := - ((- t) / s)) in *.
  split.
  - destruct (Z.lt_ge_cases ((c - 1) * g) mr) as [H|H]; [exact H|exfalso].
    assert (g * 1 <= g * (t - (c - 1) * s))
      by (apply Z.mul_le_mono_nonneg_l; lia).
    assert (t * g - mr * s >= g).
    { assert (mr * s <= (c - 1) * g * s)
        by (apply Z.mul_le_mono_nonneg_r; lia).
      nia. }
    assert (2 * g <= s) by lia.
    nia.
  - destruct (Z.le_gt_cases mr (c * g)) as [H|H]; [exact H|exfalso].
    assert (g * 0 <= g * (c * s - t))
      by (apply Z.mul_le_mono_nonneg_l; lia).
    assert ((c * g + 1) * s <= mr * s)
      by (apply Z.mul_le_mono_nonneg_r; lia).
    assert (mr * s - t * g >= s) by nia.
    lia.
Qed.

Lemma nearest_same_floor (mr t s g : Z) :
  0 < s -> 0 < g -> 0 < t < 2 ^ 53 ->
  2 ^ 52 * s <= t * g -> 2 * Z.abs (mr * s - t * g) <= s ->
  t / s * g <= mr < (t / s + 1) * g.
Proof.
  intros Hs Hg Ht Hbig Hnear.
  pose proof (Z.div_mod t s ltac:(lia)) as E.
  pose proof (Z.mod_pos_bound t s Hs) as B.
  set (k := t / s) in *.
  split.
  - destruct (Z.le_gt_cases (k * g) mr) as [H|H]; [exact H|exfalso].
    assert (g * 0 <= g * (t - k * s))
      by (apply Z.mul_le_mono_nonneg_l; lia).
    assert (mr * s <= (k * g - 1) * s)
      by (apply Z.mul_le_mono_nonneg_r; lia).
    assert (t * g - mr * s >= s) by nia.
    lia.
  - destruct (Z.lt_ge_cases mr ((k + 1) * g)) as [H|H]; [exact H|exfalso].
    assert (g * 1 <= g * ((k + 1) * s - t))
      by (apply Z.mul_le_mono_nonneg_l; lia).
    assert ((k + 1) * g * s <= mr * s)
      by (apply Z.mul_le_mono_nonneg_r; lia).
    assert (mr * s - t * g >= g) by nia.
    assert (2 * g <= s) by lia.
    nia.
Qed.

(** For a row count and a page size below [2^53] the rounding of the
    quotient does not change its ceiling. *)
Lemma pageCount_safe (t s : Z) :
  0 <= t < 2 ^ 53 -> 0 < s < 2 ^ 53 ->
  pageCount t s = of_Z (- ((- t) / s)).
Proof.
  intros Ht Hs. unfold pageCount.
  destruct s as [|s|s]; try lia.
  destruct t as [|t|t]; try lia.
  { destruct (of_Z_safe s ltac:(lia)) as [my [ey [Ey _]]].
    unfold of_Z, binary_normalize. rewrite Ey. reflexivity. }
  unfold of_Z at 1 2. cbn [binary_normalize].
  destruct (quotient_of_integers false false t s ltac:(lia) ltac:(lia))
    as [mr [m [e0 [e' [Hres [He0 [Bmr [Hme [Hbig Hnear]]]]]]]]].
  rewrite Hres. cbn [xorb].
  assert (Hg : 0 < 2 ^ (- e0)) by (apply Z.pow_pos_nonneg; lia).
  pose proof (nearest_same_ceiling (Zpos mr) (Zpos t) (Zpos s) (2 ^ (- e0))
                ltac:(lia) Hg ltac:(lia) Hbig Hnear) as Hc.
  pose proof (ceiling_bounds (Zpos t) (Zpos s) ltac:(lia)) as Bc.
  set (c := - ((- Zpos t) / Zpos s)) in *.
  assert (Hcpos : 0 < c) by nia.
  assert (Hct : c <= Zpos t) by nia.
  unfold ceil.
  destruct (Z.leb_spec 0 e') as [Hpos|Hneg].
  - (* the quotient is an integer of 53 bits *)
    destruct Hme as [[-> ->]|[Emr [Em ->]]].
    + assert (e0 = 0) as -> by lia.
      change (2 ^ (- 0)) with 1 in *.
      assert (c = Zpos mr) as -> by lia.
      unfold of_Z. cbn [binary_normalize].
      symmetry. apply of_Z_53. lia.
    + assert (e0 = -1 \/ e0 = 0) as [-> | ->] by lia.
      * change (2 ^ (- -1)) with 2 in *.
        assert (c = Zpos m) as -> by lia.
        unfold of_Z. cbn [binary_normalize].
        change (-1 + 1) with 0.
        symmetry. apply of_Z_53. lia.
      * change (2 ^ (- 0)) with 1 in *. lia.
  - (* the quotient has a fraction *)
    cbn [cond_Zopp].
    assert (- ((- Zpos m) / 2 ^ (- e')) = c) as ->; [|reflexivity].
    apply ceiling_unique; [apply Z.pow_pos_nonneg; lia|].
    destruct Hme as [[-> ->]|[Emr [Em ->]]]; [exact Hc|].
    replace (2 ^ (- e0)) with (2 * 2 ^ (- (e0 + 1))) in Hc.
    2:{ rewrite <- Z.pow_succ_r by lia. f_equal. lia. }
    set (h := 2 ^ (- (e0 + 1))) in *. lia.
Qed.

Lemma floor_unique (a d k : Z) :
  0 < d -> k * d <= a < (k + 1) * d -> a / d = k.
Proof.
  intros Hd H. symmetry. apply Z.div_unique with (r := a - d * k); lia.
Qed.

(** With a negative page size the quotient is negative, and its ceiling
    is the quotient of the magnitudes rounded down, negated. *)
Lemma pageCount_negative_size (t s : Z) :
  0 <= t < 2 ^ 53 -> - 2 ^ 53 < s < 0 ->
  pageCount t s = binary_normalize prec emax (- (t / - s)) 0 true.
Proof.
  intros Ht Hs. unfold pageCount.
  destruct s as [|s|s]; try lia.
  destruct t as [|t|t]; try lia.
  { destruct (of_Z_safe s ltac:(lia)) as [my [ey [Ey _]]].
    unfold of_Z, binary_normalize. rewrite Ey. reflexivity. }
  unfold of_Z. cbn [binary_normalize].
  destruct (quotient_of_integers false true t s ltac:(lia) ltac:(lia))
    as [mr [m [e0 [e' [Hres [He0 [Bmr [Hme [Hbig Hnear]]]]]]]]].
  rewrite Hres. cbn [xorb Z.opp].
  assert (Hg : 0 < 2 ^ (- e0)) by (apply Z.pow_pos_nonneg; lia).
  pose proof (nearest_same_floor (Zpos mr) (Zpos t) (Zpos s) (2 ^ (- e0))
                ltac:(lia) Hg ltac:(lia) Hbig Hnear) as Hk.
  pose proof (Z.div_mod (Zpos t) (Zpos s) ltac:(lia)) as Ek.
  pose proof (Z.mod_pos_bound (Zpos t) (Zpos s) ltac:(lia)) as Bk.
  set (k := Zpos t / Zpos s) in *.
  assert (Hk0 : 0 <= k) by (apply Z.div_pos; lia).
  assert (Hkt : k <= Zpos t) by nia.
  unfold ceil.
  destruct (Z.leb_spec 0 e') as [Hpos|Hneg].
  - destruct Hme as [[-> ->]|[Emr [Em ->]]].
    + assert (e0 = 0) as -> by lia.
      change (2 ^ (- 0)) with 1 in *.
      assert (k = Zpos mr) as -> by lia.
      cbn [Z.opp binary_normalize].
      symmetry. apply of_Z_53. lia.
    + assert (e0 = -1 \/ e0 = 0) as [-> | ->] by lia.
      * change (2 ^ (- -1)) with 2 in *.
        assert (k = Zpos m) as -> by lia.
        cbn [Z.opp binary_normalize].
        change (-1 + 1) with 0.
        symmetry. apply of_Z_53. lia.
      * change (2 ^ (- 0)) with 1 in *. lia.
  - cbn [cond_Zopp Z.opp].
    assert (Zpos m / 2 ^ (- e') = k) as ->; [|reflexivity].
    apply floor_unique; [apply Z.pow_pos_nonneg; lia|].
    destruct Hme as [[-> ->]|[Emr [Em ->]]]; [exact Hk|].
    replace (2 ^ (- e0)) with (2 * 2 ^ (- (e0 + 1))) in Hk.
    2:{ rewrite <- Z.pow_succ_r by lia. f_equal. lia. }
    set (h := 2 ^ (- (e0 + 1))) in *. lia.
Qed.

(** The quotient by zero. *)
Lemma pageCount_zero_size (t : Z) :
  0 <= t < 2 ^ 53 ->
  pageCount t 0 = if t =? 0 then S754_nan else S754_infinity false.
Proof.
  intros Ht. unfold pageCount.
  destruct t as [|t|t]; try lia; [reflexivity|].
  destruct (of_Z_safe t ltac:(lia)) as [mx [ex [Ex _]]].
  unfold of_Z, binary_normalize. rewrite Ex. reflexivity.
Qed.
End NumberFacts.

Import NumberFacts.

(** ** The filter overlay and the fetch request *)

Lemma truthy_nonempty (s : string) : s <> "" -> truthy (Some s) = true.
Proof. destruct s; [intros H; now elim H | reflexivity]. Qed.

Lemma filterState_pinned (props : Props.t) (a : AddressSpace)
    (userId : string) :
  Props.userId props = Some userId -> userId <> "" ->
  filterState props a = (userFilterState a ++ [userIdFilter userId])%list.
Proof.
  intros Hu Hne. unfold filterState. rewrite Hu.
  now rewrite (truthy_nonempty userId Hne).
Qed.

Lemma filterState_unpinned (props : Props.t) (a : AddressSpace) :
  truthy (Props.userId props) = false ->
  filterState props a = userFilterState a.
Proof.
  unfold filterState. destruct (Props.userId props) as [u|]; [|reflexivity].
  now intros ->.
Qed.

(** The user filter state after a run of setter calls is what the last
    call of the filter setter has put. *)
Lemma userFilterState_run (acts : list Action) (a : AddressSpace) :
  userFilterState (run a acts) = lastSetFilter acts (userFilterState a).
Proof.
  unfold run. revert a.
  induction acts as [|act acts IH]; intros a; [reflexivity|].
  cbn [fold_left lastSetFilter]. rewrite IH.
  destruct act; reflexivity.
Qed.

(** C1, as stated, fails when the [userId] prop is the empty string: the
    prop is provided, the condition [userId ? ... : ...] is false, and the
    effective filter sequence has no pinned condition. *)
Lemma empty_userId_is_not_pinned :
  Request.filter
    (scoresQuery {| Props.projectId := "p"; Props.userId := Some "";
                    Props.omittedFilter := None |} noFragments)
  <> (userFilterState noFragments ++ [userIdFilter ""])%list.
Proof. cbv. discriminate. Qed.

(** C1 (amended): when the [userId] prop is a non-empty string, then in
    every state, and so after every run of setter calls, the filter
    sequence of the fetch request is the user filter state, in its order,
    followed by the one pinned condition [{column: "User ID", type:
    "string", operator: "=", value: userId}]; the user filter state is
    what the last call of the filter setter has put (the pinned condition
    is not written into it), and it is the user filter state that the
    toolbar gets to show and edit. *)
Theorem pinned_filter_follows_user_filters `{Imports}
    (props : Props.t) (a : AddressSpace) (userId : string)
    (acts : list Action) (filterOptions : option ScoreOptions)
    (columnVisibility : VisibilityState) :
  Props.userId props = Some userId -> userId <> "" ->
  let pinned :=
    {| column := "User ID"; type := "string"; operator := "=";
       value := StringValue userId |} in
  Request.filter (scoresQuery props a) = (userFilterState a ++ [pinned])%list
  /\ Request.filter (scoresQuery props (run a acts))
     = (lastSetFilter acts (userFilterState a) ++ [pinned])%list
  /\ userFilterState (run a acts) = lastSetFilter acts (userFilterState a)
  /\ Toolbar.filterState
       (toolbarProps props (run a acts) filterOptions columnVisibility)
     = lastSetFilter acts (userFilterState a)
  /\ last (Request.filter (scoresQuery props (run a acts))) (userIdFilter "")
     = pinned.
Proof.
  intros Hu Hne pinned.
  assert (Hf : forall a', Request.filter (scoresQuery props a')
                          = (userFilterState a' ++ [pinned])%list).
  { intros a'. cbn [scoresQuery Request.filter].
    apply (filterState_pinned _ _ _ Hu Hne). }
  split; [apply Hf|].
  split; [now rewrite Hf, userFilterState_run|].
  split; [apply userFilterState_run|].
  split.
  - cbn [toolbarProps Toolbar.filterState]. apply userFilterState_run.
  - rewrite Hf. apply last_last.
Qed.

(** The scenario of the specification: the pinned user ["u1"] and the
    user-added filter [name = "accuracy"]. *)
Lemma pinned_filter_follows_user_filters_witness :
  Request.filter
    (scoresQuery
       {| Props.projectId := "p"; Props.userId := Some "u1";
          Props.omittedFilter := None |}
       (run noFragments
          [setUserFilterState
             [{| column := "name"; type := "string"; operator := "=";
                 value := StringValue "accuracy" |}]]))
  = [{| column := "name"; type := "string"; operator := "=";
        value := StringValue "accuracy" |};
     {| column := "User ID"; type := "string"; operator := "=";
        value := StringValue "u1" |}].
Proof.
  refine (proj1 (proj2 (@pinned_filter_follows_user_filters sampleImports
            {| Props.projectId := "p"; Props.userId := Some "u1";
               Props.omittedFilter := None |}
            noFragments "u1"
            [setUserFilterState
               [{| column := "name"; type := "string"; operator := "=";
                   value := StringValue "accuracy" |}]]
            None tt eq_refl _))).
  discriminate.
Defined.

(** C2: with no address fragments and no [userId] prop the fetch request
    has page 0, limit 50, no filter and the order ["timestamp"],
    ["DESC"]. *)
Theorem fresh_state_request (projectId : string)
    (omitted : option (list string)) :
  scoresQuery {| Props.projectId := projectId; Props.userId := None;
                 Props.omittedFilter := omitted |} noFragments
  = {| Request.page := 0;
       Request.limit := 50;
       Request.projectId := projectId;
       Request.filter := [];
       Request.orderBy :=
         Some {| OrderBy.column := "timestamp";
                 OrderBy.order := "DESC" |} |}.
Proof. reflexivity. Qed.

(** C5: a call of the pagination setter that gives only [pageSize] (25,
    or any other size) leaves the page index and the filter sequence as
    they were: the next fetch request has the new limit and the page and
    filter of the request before. *)
Theorem pageSize_update_keeps_page_and_filter (props : Props.t)
    (a : AddressSpace) (size : Z) :
  let a' := dispatch a (setPaginationState
                          {| newPageIndex := None;
                             newPageSize := Some size |}) in
  Request.limit (scoresQuery props a') = size
  /\ Request.page (scoresQuery props a') = Request.page (scoresQuery props a)
  /\ Request.filter (scoresQuery props a')
     = Request.filter (scoresQuery props a)
  /\ pageIndex (paginationState a') = pageIndex (paginationState a)
  /\ userFilterState a' = userFilterState a.
Proof.
  cbn. unfold filterState, userFilterState, useQueryFilterState. cbn.
  repeat split.
Qed.

Example pageSize_25_after_page_3 :
  let a := run noFragments
             [setPaginationState {| newPageIndex := Some 3;
                                    newPageSize := None |};
              setPaginationState {| newPageIndex := None;
                                    newPageSize := Some 25 |}] in
  Request.page (scoresQuery {| Props.projectId := "p"; Props.userId := None;
                               Props.omittedFilter := None |} a) = 3
  /\ Request.limit (scoresQuery {| Props.projectId := "p";
                                   Props.userId := None;
                                   Props.omittedFilter := None |} a) = 25.
Proof. split; reflexivity. Qed.

(** ** Page count *)

Lemma toZ_of_Z_safe (n : Z) :
  - 2 ^ 53 < n < 2 ^ 53 -> Number.toZ (Number.of_Z n) = Some n.
Proof.
  intros Hn.
  assert (forall (s : bool) (p : positive),
            Zpos p < 2 ^ 53 ->
            Number.toZ (binary_round Number.prec Number.emax s p 0)
            = Some (cond_Zopp s (Zpos p))) as Hp.
  { intros s p Hlt.
    destruct (of_Z_safe p Hlt) as [m [e [E [V [Be Bm]]]]].
    rewrite E. cbn [Number.toZ]. unfold Number.integerValue.
    assert (0 < 2 ^ (- e)) by (apply Z.pow_pos_nonneg; lia).
    destruct (Z.leb_spec 0 e) as [H0|H0].
    - assert (e = 0) as -> by lia. cbn [option_map].
      do 2 f_equal. change (2 ^ (- 0)) with 1 in V.
      change (2 ^ 0) with 1. lia.
    - rewrite V, Z.mod_mul, Z.div_mul by lia. reflexivity. }
  destruct n as [|p|p]; [reflexivity | |].
  - apply (Hp false p). lia.
  - apply (Hp true p). lia.
Qed.

(** C4, as stated, fails beyond [2^53]: the quotient of [2^54] rows by
    the page size 3 is rounded to the integer below it before the ceiling
    is taken, and the page count is one less than the ceiling, so that
    its pages do not hold all rows. *)
Lemma pageCount_falls_short_beyond_2_53 :
  Number.toZ
    (DataTable.pageCount
       (@tablePagination sampleImports
          {| pageIndexParam := None; pageSizeParam := Some 3;
             filterParam := None; orderByParam := None |}
          {| Query.isLoading := false; Query.isError := false;
             Query.error := None;
             Query.data := Some {| Query.totalCount := 2 ^ 54;
                                   Query.scores := [] |} |}))
  = Some 6004799503160661
  /\ 6004799503160661 * 3 < 2 ^ 54.
Proof. split; vm_compute; reflexivity. Qed.

(** C4 (amended): for a row count [0 <= totalCount < 2^53] and a page
    size [0 < pageSize < 2^53] the page count handed to the table is the
    ceiling of [totalCount / pageSize], the least [n] with [totalCount <=
    n * pageSize]; it is 0 when the row count is 0, and the row count is
    0 when the fetch has no data yet. *)
Theorem pageCount_is_ceiling `{Imports} (a : AddressSpace) (scores : Query.t) :
  0 <= totalCount scores < 2 ^ 53 ->
  0 < pageSize (paginationState a) < 2 ^ 53 ->
  exists n : Z,
    DataTable.pageCount (tablePagination a scores) = Number.of_Z n
    /\ Number.toZ (DataTable.pageCount (tablePagination a scores)) = Some n
    /\ n = (totalCount scores + pageSize (paginationState a) - 1)
           / pageSize (paginationState a)
    /\ (n - 1) * pageSize (paginationState a) < totalCount scores
       <= n * pageSize (paginationState a)
    /\ (totalCount scores = 0 -> n = 0)
    /\ (Query.data scores = None -> totalCount scores = 0 /\ n = 0).
Proof.
  intros Ht Hs.
  set (t := totalCount scores) in *.
  set (s := pageSize (paginationState a)) in *.
  exists (- ((- t) / s)).
  assert (Hb := ceiling_bounds t s ltac:(lia)).
  assert (Hz : t = 0 -> - (- t / s) = 0).
  { intros E. rewrite E. reflexivity. }
  assert (Hp : DataTable.pageCount (tablePagination a scores)
               = Number.of_Z (- ((- t) / s))).
  { cbn [tablePagination DataTable.pageCount]. fold t s.
    now apply pageCount_safe. }
  split; [exact Hp|]. split; [|split; [|split; [|split]]].
  - rewrite Hp. apply toZ_of_Z_safe. nia.
  - apply Z.div_unique with (r := t + s - 1 - s * - (- t / s)); nia.
  - exact Hb.
  - exact Hz.
  - intros Hd.
    assert (t = 0) as E by (unfold t, totalCount; now rewrite Hd).
    split; [exact E | exact (Hz E)].
Qed.

Lemma pageCount_is_ceiling_witness :
  exists n : Z,
    DataTable.pageCount
      (@tablePagination sampleImports noFragments
         {| Query.isLoading := false; Query.isError := false;
            Query.error := None;
            Query.data := Some {| Query.totalCount := 101;
                                  Query.scores := [] |} |})
    = Number.of_Z n
    /\ n = 3.
Proof.
  destruct (@pageCount_is_ceiling sampleImports noFragments
              {| Query.isLoading := false; Query.isError := false;
                 Query.error := None;
                 Query.data := Some {| Query.totalCount := 101;
                                       Query.scores := [] |} |})
    as [n [Hn [_ [Hq _]]]].
  - cbn. lia.
  - cbn. lia.
  - exists n. split; [exact Hn | exact Hq].
Defined.

(** ** Filterable columns *)

Lemma includes_In (l : list string) (x : string) :
  includes l x = true <-> In x l.
Proof.
  unfold includes. rewrite existsb_exists. split.
  - intros [y [Hy E]]. apply String.eqb_eq in E. now subst.
  - intros Hx. exists x. split; [exact Hx | apply String.eqb_refl].
Qed.

(** C7: for every list [omitted] given as [omittedFilter], the
    filterable-column descriptors handed to the toolbar are the
    descriptors of [scoresTableColsWithOptions], in their order, without
    exactly those whose name is in [omitted] (all of them when the prop
    is not given); the display columns handed to the toolbar and to the
    table are the columns of the project whatever [omitted] is. *)
Theorem omittedFilter_only_narrows_filterable `{Imports}
    (projectId : string) (userId : option string)
    (omitted : list string) (a : AddressSpace)
    (scores : Query.t) (data : TableData.t)
    (filterOptions : option ScoreOptions)
    (columnVisibility : VisibilityState) :
  let props := {| Props.projectId := projectId; Props.userId := userId;
                  Props.omittedFilter := Some omitted |} in
  let toolbar := toolbarProps props a filterOptions columnVisibility in
  let all := scoresTableColsWithOptions filterOptions in
  Toolbar.filterColumnDefinition toolbar
  = List.filter
      (fun c => negb (existsb (String.eqb (descriptorName c)) omitted))
      all
  /\ (forall c : ColumnDescriptor,
        In c (Toolbar.filterColumnDefinition toolbar)
        <-> In c all /\ ~ In (descriptorName c) omitted)
  /\ Toolbar.columns toolbar = columns projectId
  /\ DataTable.columns (tableProps props a scores data columnVisibility)
     = columns projectId
  /\ Toolbar.filterColumnDefinition
       (toolbarProps
          {| Props.projectId := projectId; Props.userId := userId;
             Props.omittedFilter := None |}
          a filterOptions columnVisibility)
     = all.
Proof.
  cbn zeta. split; [reflexivity|].
  split; [|split; [reflexivity|split; [reflexivity|]]].
  - intros c. cbn [toolbarProps Toolbar.filterColumnDefinition].
    unfold transformFilterOptions, omittedFilter. cbn [Props.omittedFilter].
    rewrite filter_In, <- includes_In.
    destruct (includes _ _); cbn [negb]; intuition discriminate.
  - cbn [toolbarProps Toolbar.filterColumnDefinition].
    unfold transformFilterOptions, omittedFilter. cbn [Props.omittedFilter].
    induction (scoresTableColsWithOptions filterOptions) as [|c l IH];
      [reflexivity|].
    cbn [List.filter].
    change (includes [] (descriptorName c)) with false.
    cbn [negb]. f_equal. exact IH.
Qed.

(** The descriptor named in the exclusion list is in the descriptors of
    the options and is not handed to the toolbar. *)
Lemma omittedFilter_only_narrows_filterable_witness :
  In "User ID" ["Trace ID"; "User ID"; "Name"]
  /\ ~ In "User ID"
         (Toolbar.filterColumnDefinition
            (@toolbarProps sampleImports
               {| Props.projectId := "p"; Props.userId := None;
                  Props.omittedFilter := Some ["User ID"] |}
               noFragments (Some ["Trace ID"; "User ID"; "Name"]) tt)).
Proof.
  split; [right; left; reflexivity|].
  intros Hin.
  apply (proj1 (proj1 (proj2
           (@omittedFilter_only_narrows_filterable sampleImports "p" None
              ["User ID"] noFragments
              {| Query.isLoading := true; Query.isError := false;
                 Query.error := None; Query.data := None |}
              loadingState (Some ["Trace ID"; "User ID"; "Name"]) tt))
           "User ID")) in Hin.
  destruct Hin as [_ Hno]. apply Hno. left. reflexivity.
Defined.

Example omittedFilter_sample :
  Toolbar.filterColumnDefinition
    (@toolbarProps sampleImports
       {| Props.projectId := "p"; Props.userId := None;
          Props.omittedFilter := Some ["User ID"] |}
       noFragments (Some ["Trace ID"; "User ID"; "Name"; "User ID"]) tt)
  = ["Trace ID"; "Name"].
Proof. reflexivity. Qed.

(** ** Display states *)

Lemma states_are_exclusive (msg : string) (rows : list ScoresTableRow.t) :
  exactlyOne (showsLoading loadingState) (showsError loadingState)
    (showsSuccess loadingState) = true
  /\ exactlyOne (showsLoading (errorState msg)) (showsError (errorState msg))
       (showsSuccess (errorState msg)) = true
  /\ exactlyOne (showsLoading (successState rows))
       (showsError (successState rows))
       (showsSuccess (successState rows)) = true.
Proof. repeat split. Qed.

(** While the fetch is in flight the table shows the loading state,
    whatever the other fields of the fetch state are. *)
Lemma loading_takes_precedence `{Imports} (scores : Query.t) :
  Query.isLoading scores = true -> tableData scores = Returns loadingState.
Proof. unfold tableData. now intros ->. Qed.

Lemma tableData_returns `{Imports} (scores : Query.t) :
  Query.well_formed scores = true ->
  exists d : TableData.t, tableData scores = Returns d.
Proof.
  unfold Query.well_formed, tableData.
  destruct (Query.isLoading scores); [eauto|].
  destruct (Query.isError scores).
  - destruct (Query.error scores); [eauto | discriminate].
  - destruct (Query.data scores); [eauto | discriminate].
Qed.

(** The component renders on every state of the fetch: the toolbar and
    the table get the props computed above. *)
Lemma ScoresTable_renders `{Imports} (props : Props.t) (a : AddressSpace)
    (scores : Query.t) (filterOptions : option ScoreOptions)
    (columnVisibility : VisibilityState) :
  Query.well_formed scores = true ->
  exists d : TableData.t,
    tableData scores = Returns d
    /\ ScoresTable props a scores filterOptions columnVisibility
       = Returns
           {| View.toolbar :=
                toolbarProps props a filterOptions columnVisibility;
              View.table :=
                tableProps props a scores d columnVisibility |}.
Proof.
  intros Hw. destruct (tableData_returns scores Hw) as [d Hd].
  exists d. split; [exact Hd|]. unfold ScoresTable. now rewrite Hd.
Qed.

(** C8: for every state of the fetch (loading, error with its error
    object, or success with its data) the [data] prop is exactly one of
    the loading state, the error state with the message of the fetch
    error, and the success state with the projected rows; it is the
    loading state whenever the fetch is in flight. *)
Theorem tableData_three_states `{Imports} (scores : Query.t) :
  Query.well_formed scores = true ->
  exists d : TableData.t,
    tableData scores = Returns d
    /\ exactlyOne (showsLoading d) (showsError d) (showsSuccess d) = true
    /\ (Query.isLoading scores = true -> d = loadingState)
    /\ (Query.isLoading scores = false -> Query.isError scores = true ->
        exists e, Query.error scores = Some e
                  /\ d = errorState (Query.message e))
    /\ (Query.isLoading scores = false -> Query.isError scores = false ->
        exists r, Query.data scores = Some r
                  /\ d = successState
                           (map convertToTableRow (Query.scores r))).
Proof.
  unfold Query.well_formed, tableData.
  destruct (Query.isLoading scores).
  - intros _. exists loadingState. repeat split; discriminate.
  - destruct (Query.isError scores).
    + destruct (Query.error scores) as [e|]; [|discriminate].
      intros _. exists (errorState (Query.message e)).
      repeat split; try discriminate.
      intros _ _. now exists e.
    + destruct (Query.data scores) as [r|]; [|discriminate].
      intros _.
      exists (successState (map convertToTableRow (Query.scores r))).
      repeat split; try discriminate.
      intros _ _. now exists r.
Qed.

Lemma tableData_three_states_witness :
  @tableData sampleImports
    {| Query.isLoading := false; Query.isError := true;
       Query.error := Some {| Query.message := "UNAUTHORIZED" |};
       Query.data := None |}
  = Returns (errorState "UNAUTHORIZED").
Proof.
  destruct (@tableData_three_states sampleImports
              {| Query.isLoading := false; Query.isError := true;
                 Query.error := Some {| Query.message := "UNAUTHORIZED" |};
                 Query.data := None |} eq_refl)
    as [d [Hd [_ [_ [He _]]]]].
  destruct (He eq_refl eq_refl) as [e [Ee Ed]].
  rewrite Hd, Ed. injection Ee as <-. reflexivity.
Defined.

(** ** Cell renderers *)

(** C10: the Observation ID cell is a link exactly when the row has both
    an observation id and a trace id, and the path of the link then embeds
    the two; without a trace id the cell is [null] even when the
    observation id is there. *)
Theorem observationId_link_iff_both (projectId : string)
    (row : ScoresTableRow.t) :
  ((exists path label truncateAt,
       observationIdCell projectId row
       = Returns (TableLink path label truncateAt))
   <-> (exists observationId traceId,
          ScoresTableRow.observationId row = Some observationId
          /\ ScoresTableRow.traceId row = Some traceId))
  /\ (forall observationId traceId,
        ScoresTableRow.observationId row = Some observationId ->
        ScoresTableRow.traceId row = Some traceId ->
        observationIdCell projectId row
        = Returns (TableLink
                     ("/project/" ++ projectId ++ "/traces/" ++ traceId
                      ++ "?observation=" ++ observationId)
                     (Some observationId) None))
  /\ (ScoresTableRow.traceId row = None ->
      observationIdCell projectId row = Returns Null)
  /\ (ScoresTableRow.observationId row = None ->
      observationIdCell projectId row = Returns Null).
Proof.
  unfold observationIdCell.
  destruct (ScoresTableRow.observationId row) as [o|],
           (ScoresTableRow.traceId row) as [t|];
    (split; [split|]).
  all: try (intros [p [l [k E]]]; discriminate).
  all: try (intros [o' [t' [E1 E2]]]; discriminate).
  all: try (intros _; eauto).
  all: repeat split; try discriminate; try reflexivity.
  intros o' t' [= <-] [= <-]. reflexivity.
Qed.

Lemma observationId_link_iff_both_witness :
  observationIdCell "p" (rowOfObservation "o1") = Returns Null.
Proof.
  exact (proj1 (proj2 (proj2 (observationId_link_iff_both "p"
                                (rowOfObservation "o1")))) eq_refl).
Defined.

(** ** The Value cell *)

Lemma valueCell_integral (row : ScoresTableRow.t) (v : Number.number) :
  ScoresTableRow.value row = Some v -> Number.valid v = true ->
  Number.integral v = true ->
  valueCell row = Returns (NumberNode v).
Proof.
  intros Hr Hv Hi. unfold valueCell. rewrite Hr.
  now rewrite rem1_zero_iff_integral, Hi.
Qed.

Lemma valueCell_fraction (row : ScoresTableRow.t)
    (s : bool) (m : positive) (e : Z) :
  ScoresTableRow.value row = Some (S754_finite s m e) ->
  Number.valid (S754_finite s m e) = true ->
  Number.integral (S754_finite s m e) = false ->
  valueCell row
  = Returns (StringNode
               (Number.minus s
                ++ Number.point_string 4
                     (Z.to_N (Number.nearest_scaled 4 m e)))).
Proof.
  intros Hr Hv Hi. unfold valueCell. rewrite Hr.
  rewrite rem1_zero_iff_integral, Hi by exact Hv.
  destruct (fraction_below_1e21 s m e Hv Hi) as [_ Hb].
  cbn [Number.toFixed]. now rewrite Hb.
Qed.

(** A numeral with zeros in front of its integer part is no fixed-point
    numeral. *)
Lemma fixedPoint_rejects_leading_zeros :
  Number.fixedPoint 4 "3.1416" false 31416
  /\ ~ Number.fixedPoint 4 "000003.1416" false 31416.
Proof.
  split.
  - exists "3", "1416". repeat split.
  - intros [a [b [Hs [Ha _]]]]. cbn [Number.minus append] in Hs.
    destruct a as [|c a]; [discriminate|].
    cbn [append] in Hs. injection Hs as Hc Hs. subst c.
    cbn [Number.plainInteger Ascii.eqb Bool.eqb negb orb] in Ha.
    apply String.eqb_eq in Ha. subst a. discriminate.
Qed.

(** The integers above [2^53] are printed with the shortest digits that
    read back, which are not the digits of the integer: the string of
    [2^60] is left undefined. *)
Example toString_beyond_2_53 :
  Number.toString (Number.of_Z (2 ^ 53)) = Some "9007199254740992"
  /\ Number.toString (Number.of_Z (2 ^ 60)) = None.
Proof. split; vm_compute; reflexivity. Qed.

(** C3, as stated, fails on the numbers that are not finite: [Infinity] is
    a number and no integer, and its cell is the string ["Infinity"],
    which is no fixed-point numeral. *)
Lemma infinity_is_not_shown_in_fixed_point :
  Number.integral (S754_infinity false) = false
  /\ valueCell (rowWithValue (Some (S754_infinity false)))
     = Returns (StringNode "Infinity")
  /\ ~ (exists negative n, Number.fixedPoint 4 "Infinity" negative n).
Proof.
  repeat split.
  intros [negative [n Hf]].
  apply fixedPoint_has_point in Hf. cbn in Hf.
  repeat (destruct Hf as [Hf|Hf]; [discriminate|]). exact Hf.
Qed.

(** C3 (amended): on a finite number the Value cell returns the number
    itself when it is an integer, which is printed as its sign and plain
    digits (up to [2^53] in magnitude), and otherwise the fixed-point
    numeral with 4 decimals of the multiple of [10^-4] nearest to the
    number, the one away from zero when two are as near.  On the numbers
    that are not finite it returns their names. *)
Theorem valueCell_integer_or_four_decimals
    (row : ScoresTableRow.t) (v : Number.number) :
  ScoresTableRow.value row = Some v -> Number.valid v = true ->
  (Number.integral v = true ->
   valueCell row = Returns (NumberNode v)
   /\ exists k : Z,
        Number.toZ v = Some k
        /\ (Z.abs k <= 2 ^ 53 ->
            Number.toString v
            = Some (Number.minus (k <? 0)
                    ++ Number.digits (Z.to_N (Z.abs k)))))
  /\ (Number.finite v = true -> Number.integral v = false ->
      exists (negative : bool) (m : positive) (e : Z) (n : N) (s : string),
        v = S754_finite negative m e
        /\ e < 0
        /\ valueCell row = Returns (StringNode s)
        /\ Number.fixedPoint 4 s negative n
        /\ - 2 ^ (- e)
           < 2 * (Z.of_N n * 2 ^ (- e) - Zpos m * 10 ^ 4)
           <= 2 ^ (- e))
  /\ (v = S754_nan -> valueCell row = Returns (StringNode "NaN"))
  /\ (v = S754_infinity false ->
      valueCell row = Returns (StringNode "Infinity"))
  /\ (v = S754_infinity true ->
      valueCell row = Returns (StringNode "-Infinity")).
Proof.
  intros Hr Hv. split; [|split].
  - intros Hi. split; [now apply valueCell_integral|].
    now apply toString_integer.
  - intros Hf Hi. destruct v as [s|s| |s m e]; try discriminate.
    destruct (fraction_below_1e21 s m e Hv Hi) as [He _].
    destruct (nearest_scaled_bounds 4 m e He) as [Hn Hb].
    exists s, m, e, (Z.to_N (Number.nearest_scaled 4 m e)),
      (Number.minus s
       ++ Number.point_string 4 (Z.to_N (Number.nearest_scaled 4 m e))).
    split; [reflexivity|]. split; [exact He|].
    split; [now apply valueCell_fraction|]. split.
    + pose proof (point_string_fixedPoint 4
                    (Z.to_N (Number.nearest_scaled 4 m e)) ltac:(lia)) as P.
      destruct s; [now apply fixedPoint_negative | exact P].
    + rewrite Z2N.id by exact Hn. exact Hb.
  - repeat split; intros ->; unfold valueCell; rewrite Hr; reflexivity.
Qed.

(** The values of the specification: 3, 3.14159 and 3.1. *)
Lemma valueCell_integer_or_four_decimals_witness :
  valueCell (rowWithValue (Some (Number.of_Z 3)))
  = Returns (NumberNode (Number.of_Z 3)).
Proof.
  exact (proj1 (proj1 (valueCell_integer_or_four_decimals
                         (rowWithValue (Some (Number.of_Z 3)))
                         (Number.of_Z 3) eq_refl eq_refl) eq_refl)).
Defined.

Example valueCell_samples :
  Number.toString (Number.of_Z 3) = Some "3"
  /\ valueCell (rowWithValue (Some (Number.of_ratio 314159 100000)))
     = Returns (StringNode "3.1416")
  /\ valueCell (rowWithValue (Some (Number.of_ratio 31 10)))
     = Returns (StringNode "3.1000")
  /\ valueCell (rowWithValue (Some (Number.of_ratio (-5) 2)))
     = Returns (StringNode "-2.5000")
  /\ valueCell (rowWithValue (Some (Number.of_Z (-7))))
     = Returns (NumberNode (Number.of_Z (-7))).
Proof. repeat split; vm_compute; reflexivity. Qed.

(** ** No cell throws on a row of the declared type *)

Lemma valueCell_returns (row : ScoresTableRow.t) (v : Number.number) :
  ScoresTableRow.value row = Some v -> Number.valid v = true ->
  exists node, valueCell row = Returns node.
Proof.
  intros Hr Hv.
  destruct (Number.integral v) eqn:Hi.
  - exists (NumberNode v). now apply valueCell_integral.
  - destruct v as [s|s| |s m e]; try discriminate.
    + unfold valueCell. rewrite Hr. destruct s; cbn; eauto.
    + unfold valueCell. rewrite Hr. cbn. eauto.
    + eexists. apply (valueCell_fraction row s m e); assumption.
Qed.

(** The Trace Name cell: the encoding of the filter throws on a trace
    name with a lone surrogate, before the name is tested; otherwise the
    cell is a link. *)
Lemma traceNameCell_eval (projectId : string) (row : ScoresTableRow.t) :
  traceNameCell projectId row
  = if hasLoneSurrogate (templateString (ScoresTableRow.traceName row))
    then Throws URIError
    else Returns
           (TableLink
              ("/project/" ++ projectId ++ "/traces?filter="
               ++ (if truthy (ScoresTableRow.traceName row)
                   then percentEncode
                          ("name;stringOptions;;any of;"
                           ++ templateString (ScoresTableRow.traceName row))
                   else ""))
              (ScoresTableRow.traceName row) (Some 40)).
Proof.
  unfold traceNameCell, encodeURIComponent.
  change (hasLoneSurrogate
            ("name;stringOptions;;any of;"
             ++ templateString (ScoresTableRow.traceName row)))
    with (hasLoneSurrogate (templateString (ScoresTableRow.traceName row))).
  now destruct (hasLoneSurrogate _).
Qed.

(** A renderer of the schema returns on a row whose value is a number and
    whose trace name has no lone surrogate; the renderers of the other
    columns than Value and Trace Name return on every row. *)
Lemma renderer_returns (projectId : string) (row : ScoresTableRow.t)
    (c : Column.t) (render : ScoresTableRow.t -> Outcome ReactNode) :
  In c (columns projectId) -> Column.cell c = Some render ->
  (exists v, ScoresTableRow.value row = Some v /\ Number.valid v = true)
  \/ Column.id c <> "value" ->
  hasLoneSurrogate (templateString (ScoresTableRow.traceName row)) = false
  \/ Column.id c <> "traceName" ->
  exists node, render row = Returns node.
Proof.
  intros Hin Hc Hrow Hname. cbn [columns In] in Hin.
  repeat (destruct Hin as [<-|Hin]); try contradiction;
    cbn [Column.cell Column.id] in *; try discriminate;
    injection Hc as <-.
  - unfold traceIdCell. destruct (ScoresTableRow.traceId row); eauto.
  - unfold observationIdCell.
    destruct (ScoresTableRow.observationId row),
             (ScoresTableRow.traceId row); eauto.
  - destruct Hname as [Hs|Hne]; [|now elim Hne].
    rewrite traceNameCell_eval, Hs. eauto.
  - destruct Hrow as [[v [Hv Hvalid]]|Hne]; [|now elim Hne].
    now apply valueCell_returns with v.
  - unfold userIdCell. destruct (ScoresTableRow.userId row); eauto.
Qed.

(** The rows the table is given are projections of scores, which have the
    declared type. *)
Lemma convertToTableRow_well_typed `{Imports} (score : Score.t) :
  Number.valid (Score.value score) = true ->
  ScoresTableRow.well_typed (convertToTableRow score) = true.
Proof. intros Hv. exact Hv. Qed.

Lemma projected_row_renders `{Imports} (projectId : string)
    (score : Score.t) (c : Column.t)
    (render : ScoresTableRow.t -> Outcome ReactNode) :
  Number.valid (Score.value score) = true ->
  hasLoneSurrogate (Score.traceName score) = false ->
  In c (columns projectId) -> Column.cell c = Some render ->
  exists node, render (convertToTableRow score) = Returns node.
Proof.
  intros Hv Hs Hin Hc.
  apply (renderer_returns projectId _ c render Hin Hc).
  - left. now exists (Score.value score).
  - left. exact Hs.
Qed.

(** On an undefined trace name the Trace Name cell is a link, none of the
    absent markers. *)
Lemma traceName_undefined_is_a_link :
  traceNameCell "p" (rowOfObservation "o1")
  = Returns (TableLink "/project/p/traces?filter=" None (Some 40))
  /\ absent (TableLink "/project/p/traces?filter=" None (Some 40)) = false.
Proof. split; reflexivity. Qed.

(** C6, as stated, fails on the Value column: on a row whose value is
    [undefined] its renderer throws a [TypeError]. *)
Lemma value_renderer_throws_on_undefined :
  exists (c : Column.t) (render : ScoresTableRow.t -> Outcome ReactNode),
    In c (columns "p")
    /\ Column.id c = "value"
    /\ Column.cell c = Some render
    /\ render (rowWithValue None) = Throws TypeError.
Proof.
  eexists. exists valueCell. split.
  - do 5 right. left. reflexivity.
  - repeat split.
Qed.

(** C6 (amended): on a row whose value is a number and whose trace name
    has no lone surrogate every cell renderer of the schema returns,
    whatever other fields are undefined.  An undefined trace id or user
    id gives [undefined] in its cell, an undefined observation id or
    trace id gives [null] in the Observation ID cell, and an undefined
    trace name gives a link with an empty filter and no label.  The
    renderers of the other columns than Value and Trace Name return on
    every row; the Trace Name renderer throws a [URIError] on every row
    whose trace name has a lone surrogate, and the Value renderer a
    [TypeError] on every row whose value is undefined. *)
Theorem renderers_return_when_value_is_a_number (projectId : string)
    (row : ScoresTableRow.t) (c : Column.t)
    (render : ScoresTableRow.t -> Outcome ReactNode) (v : Number.number) :
  In c (columns projectId) -> Column.cell c = Some render ->
  ScoresTableRow.value row = Some v -> Number.valid v = true ->
  hasLoneSurrogate (templateString (ScoresTableRow.traceName row)) = false ->
  (exists node, render row = Returns node)
  /\ (forall row' : ScoresTableRow.t,
        Column.id c <> "value" -> Column.id c <> "traceName" ->
        exists node, render row' = Returns node)
  /\ (forall row' : ScoresTableRow.t,
        hasLoneSurrogate (templateString (ScoresTableRow.traceName row'))
        = true ->
        traceNameCell projectId row' = Throws URIError)
  /\ (forall row' : ScoresTableRow.t,
        ScoresTableRow.value row' = None ->
        valueCell row' = Throws TypeError)
  /\ (ScoresTableRow.traceId row = None ->
      traceIdCell projectId row = Returns Undefined)
  /\ (ScoresTableRow.userId row = None ->
      userIdCell projectId row = Returns Undefined)
  /\ (ScoresTableRow.observationId row = None
      \/ ScoresTableRow.traceId row = None ->
      observationIdCell projectId row = Returns Null)
  /\ (ScoresTableRow.traceName row = None ->
      traceNameCell projectId row
      = Returns (TableLink ("/project/" ++ projectId ++ "/traces?filter=")
                           None (Some 40))).
Proof.
  intros Hin Hc Hr Hv Hs.
  split; [apply (renderer_returns projectId row c render Hin Hc); eauto|].
  split.
  { intros row' Hne Hne'.
    apply (renderer_returns projectId row' c render Hin Hc); now right. }
  split; [intros row' Hs'; now rewrite traceNameCell_eval, Hs'|].
  split; [intros row' E; unfold valueCell; now rewrite E|].
  split; [intros E; unfold traceIdCell; now rewrite E|].
  split; [intros E; unfold userIdCell; now rewrite E|].
  split.
  - intros [E|E]; unfold observationIdCell; rewrite E;
      [reflexivity | now destruct (ScoresTableRow.observationId row)].
  - intros E. rewrite traceNameCell_eval, E. reflexivity.
Qed.

Lemma renderers_return_when_value_is_a_number_witness :
  exists node,
    valueCell (rowWithValue (Some (Number.of_ratio 31 10))) = Returns node.
Proof.
  refine (proj1 (renderers_return_when_value_is_a_number "p"
            (rowWithValue (Some (Number.of_ratio 31 10)))
            {| Column.accessorKey := "value";
               Column.header := "Value";
               Column.id := "value";
               Column.enableHiding := Some true;
               Column.enableSorting := Some true;
               Column.enableColumnFilter := None;
               Column.cell := Some valueCell |}
            valueCell (Number.of_ratio 31 10) _ eq_refl eq_refl eq_refl
            eq_refl)).
  do 5 right. left. reflexivity.
Defined.

(** * Further properties of the component *)

(** ** The Trace Name link *)

Lemma percentEncode_app (s t : string) :
  percentEncode (s ++ t) = percentEncode s ++ percentEncode t.
Proof.
  induction s as [|c s IH]; [reflexivity|].
  cbn [append percentEncode]. rewrite IH.
  destruct (uriUnreserved c); cbn [append]; reflexivity.
Qed.

Lemma allChars_app (p : ascii -> bool) (s t : string) :
  allChars p (s ++ t) = allChars p s && allChars p t.
Proof.
  unfold allChars. induction s as [|c s IH]; [reflexivity|].
  cbn [append list_ascii_of_string forallb]. rewrite IH.
  now rewrite andb_assoc.
Qed.

Lemma hexDigit_unreserved (c : ascii) :
  uriUnreserved (hexDigit (N_of_ascii c / 16)) = true
  /\ uriUnreserved (hexDigit (N_of_ascii c mod 16)) = true.
Proof.
  destruct c as [[|] [|] [|] [|] [|] [|] [|] [|]]; split; reflexivity.
Qed.

Lemma percentEncode_chars (s : string) :
  allChars uriComponentChar (percentEncode s) = true.
Proof.
  induction s as [|c s IH]; [reflexivity|].
  cbn [percentEncode]. rewrite allChars_app, IH, andb_true_r.
  destruct (uriUnreserved c) eqn:Hc.
  - unfold allChars, uriComponentChar. cbn. now rewrite Hc.
  - destruct (hexDigit_unreserved c) as [Hh Hl].
    unfold allChars, uriComponentChar. cbn [list_ascii_of_string forallb].
    rewrite Hh, Hl. reflexivity.
Qed.

Lemma hexValue_hexDigit (c : ascii) :
  ascii_of_N (16 * hexValue (hexDigit (N_of_ascii c / 16))
              + hexValue (hexDigit (N_of_ascii c mod 16))) = c.
Proof.
  destruct c as [[|] [|] [|] [|] [|] [|] [|] [|]]; reflexivity.
Qed.

Lemma unreserved_not_percent (c : ascii) :
  uriUnreserved c = true -> Ascii.eqb c "%" = false.
Proof.
  destruct c as [[|] [|] [|] [|] [|] [|] [|] [|]];
    try reflexivity; discriminate.
Qed.

(** The escapes read back give the bytes that were encoded. *)
Lemma percentDecode_percentEncode (s : string) :
  percentDecode (percentEncode s) = s.
Proof.
  induction s as [|c s IH]; [reflexivity|].
  cbn [percentEncode].
  destruct (uriUnreserved c) eqn:Hc.
  - cbn [append percentDecode].
    rewrite (unreserved_not_percent c Hc). now rewrite IH.
  - cbn [append percentDecode]. rewrite Ascii.eqb_refl.
    now rewrite hexValue_hexDigit, IH.
Qed.

Lemma percentEncode_inj (s t : string) :
  percentEncode s = percentEncode t -> s = t.
Proof.
  intros E. rewrite <- (percentDecode_percentEncode s),
    <- (percentDecode_percentEncode t). now rewrite E.
Qed.

Lemma percentEncode_unreserved (s : string) :
  allChars uriUnreserved s = true -> percentEncode s = s.
Proof.
  unfold allChars. induction s as [|c s IH]; [reflexivity|].
  cbn [list_ascii_of_string forallb percentEncode].
  intros H. apply andb_prop in H as [Hc Hs].
  rewrite Hc, (IH Hs). reflexivity.
Qed.

Lemma append_inv_head (p s t : string) : p ++ s = p ++ t -> s = t.
Proof.
  induction p as [|c p IH]; cbn [append]; [auto|].
  intros [= E]. auto.
Qed.

Lemma append_assoc (a b c : string) : (a ++ b) ++ c = a ++ (b ++ c).
Proof.
  induction a as [|x a IH]; cbn [append]; [reflexivity | now rewrite IH].
Qed.

Lemma unreserved_is_no_lead_byte (c : ascii) :
  uriUnreserved c = true -> (N_of_ascii c =? 237)%N = false.
Proof.
  destruct c as [[|] [|] [|] [|] [|] [|] [|] [|]];
    try reflexivity; discriminate.
Qed.

Lemma unreserved_no_surrogate (s : string) :
  allChars uriUnreserved s = true -> hasLoneSurrogate s = false.
Proof.
  unfold allChars. induction s as [|c s IH]; [reflexivity|].
  cbn [list_ascii_of_string forallb hasLoneSurrogate].
  intros H. apply andb_prop in H as [Hc Hs].
  now rewrite (unreserved_is_no_lead_byte c Hc), (IH Hs).
Qed.

Lemma traceNameCell_named (projectId : string) (row : ScoresTableRow.t)
    (name : string) :
  ScoresTableRow.traceName row = Some name -> name <> "" ->
  hasLoneSurrogate name = false ->
  traceNameCell projectId row
  = Returns (TableLink
               ("/project/" ++ projectId ++ "/traces?filter="
                ++ traceNameFilterHead ++ percentEncode name)
               (Some name) (Some 40)).
Proof.
  intros Hn Hne Hs. rewrite traceNameCell_eval, Hn.
  cbn [templateString]. rewrite Hs.
  destruct name as [|c name]; [now elim Hne|].
  cbn [truthy]. now rewrite percentEncode_app.
Qed.

Lemma traceNameCell_unnamed (projectId : string) (row : ScoresTableRow.t) :
  truthy (ScoresTableRow.traceName row) = false ->
  traceNameCell projectId row
  = Returns (TableLink ("/project/" ++ projectId ++ "/traces?filter=")
                       (ScoresTableRow.traceName row) (Some 40)).
Proof.
  intros Hn. rewrite traceNameCell_eval, Hn.
  destruct (ScoresTableRow.traceName row) as [[|c n]|];
    try discriminate; reflexivity.
Qed.

Lemma uriComponentChar_not_reserved (c : ascii) :
  uriComponentChar c = true ->
  negb (existsb (Ascii.eqb c)
          ["&"; "#"; "="; "?"; "/"; ";"; " "; "+"; ":"; ","]%char) = true.
Proof.
  destruct c as [[|] [|] [|] [|] [|] [|] [|] [|]];
    try reflexivity; discriminate.
Qed.

Lemma allChars_impl (p q : ascii -> bool) (s : string) :
  (forall c, p c = true -> q c = true) ->
  allChars p s = true -> allChars q s = true.
Proof.
  intros Hpq. unfold allChars.
  induction s as [|c s IH]; [reflexivity|].
  cbn [list_ascii_of_string forallb]. intros H.
  apply andb_prop in H as [Hc Hs]. now rewrite (Hpq c Hc), (IH Hs).
Qed.

(** X1: on every row the Trace Name cell throws a [URIError] when the
    trace name has a lone surrogate, and is otherwise a link below the
    traces of the project whose filter parameter is made of unreserved
    characters and percent escapes only: no character of a trace name can
    end the parameter or start another one. *)
Theorem traceName_link_filter_is_escaped (projectId : string)
    (row : ScoresTableRow.t) :
  (hasLoneSurrogate (templateString (ScoresTableRow.traceName row)) = true ->
   traceNameCell projectId row = Throws URIError)
  /\ (hasLoneSurrogate (templateString (ScoresTableRow.traceName row))
      = false ->
      exists filter : string,
        traceNameCell projectId row
        = Returns (TableLink
                     ("/project/" ++ projectId ++ "/traces?filter="
                      ++ filter)
                     (ScoresTableRow.traceName row) (Some 40))
        /\ allChars uriComponentChar filter = true
        /\ allChars
             (fun c =>
                negb (existsb (Ascii.eqb c)
                        ["&"; "#"; "="; "?"; "/"; ";"; " "; "+"; ":";
                         ","]%char))
             filter = true).
Proof.
  assert (forall f, allChars uriComponentChar f = true ->
            allChars
              (fun c => negb (existsb (Ascii.eqb c)
                    ["&"; "#"; "="; "?"; "/"; ";"; " "; "+"; ":"; ","]%char))
              f = true) as Hres.
  { intros f. apply allChars_impl. exact uriComponentChar_not_reserved. }
  rewrite traceNameCell_eval. split; intros Hs; rewrite Hs; [reflexivity|].
  destruct (truthy (ScoresTableRow.traceName row)).
  - eexists. split; [reflexivity|].
    pose proof (percentEncode_chars
                  ("name;stringOptions;;any of;"
                   ++ templateString (ScoresTableRow.traceName row))) as Hc.
    split; [exact Hc | now apply Hres].
  - exists "". repeat split.
Qed.

Lemma traceName_link_filter_is_escaped_witness :
  traceNameCell "p" (rowWithTraceName (Some ("a" ++ loneSurrogate)))
  = Throws URIError.
Proof.
  apply (proj1 (traceName_link_filter_is_escaped "p"
                  (rowWithTraceName (Some ("a" ++ loneSurrogate))))).
  reflexivity.
Defined.

(** X2: the Trace Name cell throws a [URIError] on a trace name with a
    lone surrogate.  Otherwise it is a link whose filter is nothing for an
    undefined or empty trace name, and else the encoded text
    [name;stringOptions;;any of;] followed by the encoded trace name. *)
Theorem traceName_link_path (projectId : string) (row : ScoresTableRow.t) :
  traceNameCell projectId row
  = if hasLoneSurrogate (templateString (ScoresTableRow.traceName row))
    then Throws URIError
    else
      Returns (TableLink
                 ("/project/" ++ projectId ++ "/traces?filter="
                  ++ match ScoresTableRow.traceName row with
                     | Some (String c rest) =>
                         traceNameFilterHead
                         ++ percentEncode (String c rest)
                     | Some EmptyString | None => ""
                     end)
                 (ScoresTableRow.traceName row) (Some 40)).
Proof.
  destruct (hasLoneSurrogate
              (templateString (ScoresTableRow.traceName row))) eqn:Hs.
  - now rewrite traceNameCell_eval, Hs.
  - destruct (ScoresTableRow.traceName row) as [[|c rest]|] eqn:Hn.
    + rewrite (traceNameCell_unnamed projectId row), Hn; [reflexivity|].
      now rewrite Hn.
    + rewrite (traceNameCell_named projectId row (String c rest) Hn);
        [reflexivity | discriminate | exact Hs].
    + rewrite (traceNameCell_unnamed projectId row), Hn; [reflexivity|].
      now rewrite Hn.
Qed.

(** X3: two rows of a project with non-empty trace names whose Trace Name
    cells are links with the same path have the same trace name. *)
Theorem traceName_link_determines_name (projectId : string)
    (row1 row2 : ScoresTableRow.t) (name1 name2 path : string) :
  ScoresTableRow.traceName row1 = Some name1 -> name1 <> "" ->
  ScoresTableRow.traceName row2 = Some name2 -> name2 <> "" ->
  linkPath (traceNameCell projectId row1) = Some path ->
  linkPath (traceNameCell projectId row2) = Some path ->
  name1 = name2.
Proof.
  intros H1 N1 H2 N2 P1 P2.
  assert (forall row name,
            ScoresTableRow.traceName row = Some name ->
            linkPath (traceNameCell projectId row) = Some path ->
            hasLoneSurrogate name = false) as Hs.
  { intros row name Hn Hp. rewrite traceNameCell_eval, Hn in Hp.
    cbn [templateString] in Hp.
    destruct (hasLoneSurrogate name); [discriminate | reflexivity]. }
  rewrite (traceNameCell_named projectId row1 name1 H1 N1 (Hs _ _ H1 P1))
    in P1.
  rewrite (traceNameCell_named projectId row2 name2 H2 N2 (Hs _ _ H2 P2))
    in P2.
  cbn [linkPath] in P1, P2.
  assert (E : "/project/" ++ projectId ++ "/traces?filter="
              ++ traceNameFilterHead ++ percentEncode name1
              = "/project/" ++ projectId ++ "/traces?filter="
                ++ traceNameFilterHead ++ percentEncode name2)
    by congruence.
  do 4 apply append_inv_head in E.
  now apply percentEncode_inj.
Qed.

Lemma traceName_link_determines_name_witness : "chat" = "chat".
Proof.
  apply (traceName_link_determines_name "p" (rowWithValue None)
           (rowWithValue (Some Number.zero)) "chat" "chat"
           ("/project/p/traces?filter="
            ++ "name%3BstringOptions%3B%3Bany%20of%3Bchat")
           eq_refl);
    [discriminate | reflexivity | discriminate | reflexivity | reflexivity].
Defined.

(** X4: a trace name of letters, digits and [- _ . ! ~ * ' ( )] stands in
    the link as it is. *)
Theorem traceName_link_of_plain_name (projectId : string)
    (row : ScoresTableRow.t) (name : string) :
  ScoresTableRow.traceName row = Some name -> name <> "" ->
  allChars uriUnreserved name = true ->
  traceNameCell projectId row
  = Returns (TableLink
               ("/project/" ++ projectId
                ++ "/traces?filter=name%3BstringOptions%3B%3Bany%20of%3B"
                ++ name)
               (Some name) (Some 40)).
Proof.
  intros Hn Hne Hp.
  rewrite (traceNameCell_named projectId row name Hn Hne
             (unreserved_no_surrogate name Hp)).
  rewrite (percentEncode_unreserved name Hp).
  reflexivity.
Qed.

Lemma traceName_link_of_plain_name_witness :
  traceNameCell "p" (rowWithValue None)
  = Returns (TableLink
               ("/project/p/traces?filter="
                ++ "name%3BstringOptions%3B%3Bany%20of%3Bchat")
               (Some "chat") (Some 40)).
Proof.
  apply (traceName_link_of_plain_name "p" (rowWithValue None) "chat" eq_refl);
    [discriminate | reflexivity].
Defined.

(** ** The Value cell on every number *)

(** X5: on every number the Value cell returns: the number itself exactly
    when it is an integer (negative zero included), and a string for every
    other number, which is the name of the number when it is not
    finite. *)
Theorem valueCell_number_iff_integer (row : ScoresTableRow.t)
    (v : Number.number) :
  ScoresTableRow.value row = Some v -> Number.valid v = true ->
  (valueCell row = Returns (NumberNode v) <-> Number.integral v = true)
  /\ (Number.integral v = false ->
      exists s, valueCell row = Returns (StringNode s))
  /\ (v = S754_nan -> valueCell row = Returns (StringNode "NaN"))
  /\ (v = S754_infinity false ->
      valueCell row = Returns (StringNode "Infinity"))
  /\ (v = S754_infinity true ->
      valueCell row = Returns (StringNode "-Infinity")).
Proof.
  intros Hr Hv.
  assert (Hs : Number.integral v = false ->
               exists s, valueCell row = Returns (StringNode s)).
  { intros Hi. destruct v as [s|s| |s m e]; try discriminate.
    - unfold valueCell. rewrite Hr. destruct s; cbn; eauto.
    - unfold valueCell. rewrite Hr. cbn. eauto.
    - eexists. apply (valueCell_fraction row s m e); assumption. }
  split; [split|split; [exact Hs|]].
  - intros E. destruct (Number.integral v); [reflexivity|].
    destruct (Hs eq_refl) as [s Es]. rewrite Es in E. discriminate.
  - now apply valueCell_integral.
  - repeat split; intros ->; unfold valueCell; rewrite Hr; reflexivity.
Qed.

Lemma valueCell_number_iff_integer_witness :
  valueCell (rowWithValue (Some (S754_zero true)))
  = Returns (NumberNode (S754_zero true)).
Proof.
  apply (proj1 (valueCell_number_iff_integer
                  (rowWithValue (Some (S754_zero true))) (S754_zero true)
                  eq_refl eq_refl)).
  reflexivity.
Defined.

(** ** Page count *)

(** X7: for a row count and a page size below [2^53] the page count is
    an integer, and a page index has rows exactly when it is below the
    page count: page [i] starts at row [i * pageSize]. *)
Theorem page_has_rows_iff_below_pageCount (totalCount pageSize i : Z) :
  0 <= totalCount < 2 ^ 53 -> 0 < pageSize < 2 ^ 53 -> 0 <= i ->
  exists n : Z,
    pageCount totalCount pageSize = Number.of_Z n
    /\ Number.toZ (pageCount totalCount pageSize) = Some n
    /\ (i * pageSize < totalCount <-> i < n).
Proof.
  intros Ht Hs Hi. exists (- ((- totalCount) / pageSize)).
  pose proof (ceiling_bounds totalCount pageSize ltac:(lia)) as B.
  rewrite (pageCount_safe totalCount pageSize Ht Hs).
  split; [reflexivity|]. split.
  - apply toZ_of_Z_safe. nia.
  - split; intros H; nia.
Qed.

Lemma page_has_rows_iff_below_pageCount_witness :
  exists n : Z,
    pageCount 101 50 = Number.of_Z n
    /\ Number.toZ (pageCount 101 50) = Some n
    /\ (2 * 50 < 101 <-> 2 < n).
Proof.
  apply (page_has_rows_iff_below_pageCount 101 50 2); lia.
Defined.

(** X8: for row counts and page sizes below [2^53], the page counts are
    integers; more rows never give fewer pages, and larger pages never
    give more pages. *)
Theorem pageCount_monotone (totalCount totalCount' pageSize pageSize' : Z) :
  0 <= totalCount <= totalCount' -> totalCount' < 2 ^ 53 ->
  0 < pageSize' <= pageSize -> pageSize < 2 ^ 53 ->
  exists n n' : Z,
    Number.toZ (pageCount totalCount pageSize) = Some n
    /\ Number.toZ (pageCount totalCount' pageSize') = Some n'
    /\ 0 <= n <= n'.
Proof.
  intros Ht Ht' Hs Hs'.
  exists (- ((- totalCount) / pageSize)), (- ((- totalCount') / pageSize')).
  rewrite (pageCount_safe totalCount pageSize) by lia.
  rewrite (pageCount_safe totalCount' pageSize') by lia.
  pose proof (ceiling_bounds totalCount pageSize ltac:(lia)) as B.
  pose proof (ceiling_bounds totalCount' pageSize' ltac:(lia)) as B'.
  set (n := - ((- totalCount) / pageSize)) in *.
  set (n' := - ((- totalCount') / pageSize')) in *.
  assert (0 <= n) by nia.
  assert (0 <= n') by nia.
  assert (n <= totalCount) by nia.
  assert (n' <= totalCount') by nia.
  split; [apply toZ_of_Z_safe; lia|].
  split; [apply toZ_of_Z_safe; lia|].
  split; [assumption|].
  destruct (Z.le_gt_cases n n') as [H'|H']; [exact H'|].
  assert (n' <= n - 1) by lia.
  nia.
Qed.

Lemma pageCount_monotone_witness :
  exists n n' : Z,
    Number.toZ (pageCount 100 50) = Some n
    /\ Number.toZ (pageCount 101 25) = Some n'
    /\ 0 <= n <= n'.
Proof.
  apply (pageCount_monotone 100 101 50 25); lia.
Defined.

(** ** Link cells *)

(** X11: when the Observation ID cell of a row is a link, the Trace ID cell of
    the row is one too, and the observation link is the trace link
    followed by [?observation=] and the observation id. *)
Theorem observation_link_extends_trace_link (projectId : string)
    (row : ScoresTableRow.t) (path : string) :
  linkPath (observationIdCell projectId row) = Some path ->
  exists tracePath observationId : string,
    linkPath (traceIdCell projectId row) = Some tracePath
    /\ ScoresTableRow.observationId row = Some observationId
    /\ path = tracePath ++ "?observation=" ++ observationId.
Proof.
  unfold observationIdCell, traceIdCell.
  destruct (ScoresTableRow.observationId row) as [o|],
           (ScoresTableRow.traceId row) as [t|];
    cbn [linkPath]; try discriminate.
  intros E.
  assert (forall x y : string, Some x = Some y -> x = y) as Some_inj
    by (intros x y [= ->]; reflexivity).
  apply Some_inj in E. subst path.
  exists ("/project/" ++ projectId ++ "/traces/" ++ t), o.
  repeat split. now rewrite !append_assoc.
Qed.

Lemma observation_link_extends_trace_link_witness :
  exists tracePath observationId : string,
    linkPath (traceIdCell "p"
                (convertToTableRow
                   (sampleScore Number.zero (Some "o1") None)))
    = Some tracePath
    /\ Some "o1" = Some observationId
    /\ "/project/p/traces/t1?observation=o1"
       = tracePath ++ "?observation=" ++ observationId.
Proof.
  apply (observation_link_extends_trace_link "p"
           (convertToTableRow (sampleScore Number.zero (Some "o1") None))
           "/project/p/traces/t1?observation=o1").
  reflexivity.
Defined.

(** ** Rows projected from scores *)

(** X12: on the row projected from a score whose trace name has no lone
    surrogate no renderer of the schema throws; its Trace ID cell is the
    link to the trace of the score, and its Observation ID and User ID
    cells are absent exactly when the score has [null] there. *)
Theorem projected_row_cells `{Imports} (projectId : string)
    (score : Score.t) :
  Number.valid (Score.value score) = true ->
  hasLoneSurrogate (Score.traceName score) = false ->
  (forall (c : Column.t) (render : ScoresTableRow.t -> Outcome ReactNode),
     In c (columns projectId) -> Column.cell c = Some render ->
     exists node, render (convertToTableRow score) = Returns node)
  /\ traceIdCell projectId (convertToTableRow score)
     = Returns (Fragment
                  [TableLink ("/project/" ++ projectId ++ "/traces/"
                              ++ Score.traceId score)
                             (Some (Score.traceId score)) None])
  /\ (observationIdCell projectId (convertToTableRow score) = Returns Null
      <-> Score.observationId score = None)
  /\ (userIdCell projectId (convertToTableRow score) = Returns Undefined
      <-> Score.userId score = None)
  /\ linkPath (traceNameCell projectId (convertToTableRow score))
     = Some ("/project/" ++ projectId ++ "/traces?filter="
             ++ if truthy (Some (Score.traceName score))
                then traceNameFilterHead
                     ++ percentEncode (Score.traceName score)
                else "").
Proof.
  intros Hv Hs. split.
  { intros c render Hin Hc.
    apply (renderer_returns projectId _ c render Hin Hc).
    - left. now exists (Score.value score).
    - left. exact Hs. }
  split; [reflexivity|].
  rewrite traceNameCell_eval.
  unfold observationIdCell, userIdCell.
  cbn [convertToTableRow ScoresTableRow.observationId ScoresTableRow.traceId
       ScoresTableRow.userId ScoresTableRow.traceName templateString].
  rewrite Hs.
  split; [|split].
  - destruct (Score.observationId score); split; congruence.
  - destruct (Score.userId score); split; congruence.
  - destruct (Score.traceName score) as [|c n]; [reflexivity|].
    cbn [truthy linkPath].
    now rewrite percentEncode_app.
Qed.

Lemma projected_row_cells_witness :
  observationIdCell "p"
    (convertToTableRow (sampleScore (Number.of_ratio 31 10) None None))
  = Returns Null.
Proof.
  apply (proj1 (proj2 (proj2 (@projected_row_cells sampleImports "p"
                  (sampleScore (Number.of_ratio 31 10) None None)
                  eq_refl eq_refl)))).
  reflexivity.
Defined.

(** ** What is shown and what is fetched *)

(** X13: the table and the toolbar show the state the fetch request was made
    from: the pagination state and the order of the table are the page,
    limit and order of the request, and the filter of the request is the
    filter state of the toolbar followed by the pinned condition, if
    any. *)
Theorem view_shows_the_fetched_state `{Imports} (props : Props.t)
    (a : AddressSpace) (scores : Query.t) (data : TableData.t)
    (filterOptions : option ScoreOptions)
    (columnVisibility : VisibilityState) :
  let request := scoresQuery props a in
  let toolbar := toolbarProps props a filterOptions columnVisibility in
  let table := tableProps props a scores data columnVisibility in
  Request.page request
  = pageIndex (DataTable.state (DataTable.pagination table))
  /\ Request.limit request
     = pageSize (DataTable.state (DataTable.pagination table))
  /\ Request.orderBy request = DataTable.orderBy table
  /\ Request.filter request
     = (Toolbar.filterState toolbar ++ implicitFilter props)%list
  /\ (List.length (implicitFilter props) <= 1)%nat
  /\ firstn (List.length (Toolbar.filterState toolbar)) (Request.filter request)
     = Toolbar.filterState toolbar.
Proof.
  cbn zeta.
  assert (Hf : filterState props a
               = (userFilterState a ++ implicitFilter props)%list).
  { unfold filterState, implicitFilter.
    destruct (Props.userId props) as [u|];
      [destruct (truthy (Some u))|]; now rewrite ?app_nil_r. }
  cbn [scoresQuery tableProps toolbarProps tablePagination
       Request.page Request.limit Request.orderBy Request.filter
       DataTable.pagination DataTable.state DataTable.orderBy
       Toolbar.filterState].
  repeat split.
  - exact Hf.
  - unfold implicitFilter. destruct (Props.userId props) as [u|];
      [destruct (truthy (Some u))|]; cbn; lia.
  - rewrite Hf, firstn_app, Nat.sub_diag, firstn_all, firstn_O.
    apply app_nil_r.
Qed.

(** ** The component as a whole *)

(** X14: the component renders exactly on the states of the fetch that have
    what their flags announce; on the other ones the reading of the
    missing error or data throws. *)
Theorem ScoresTable_renders_iff_well_formed `{Imports} (props : Props.t)
    (a : AddressSpace) (scores : Query.t)
    (filterOptions : option ScoreOptions)
    (columnVisibility : VisibilityState) :
  ((exists view,
       ScoresTable props a scores filterOptions columnVisibility
       = Returns view)
   <-> Query.well_formed scores = true)
  /\ (Query.well_formed scores = false ->
      ScoresTable props a scores filterOptions columnVisibility
      = Throws TypeError)
  /\ (forall view,
        ScoresTable props a scores filterOptions columnVisibility
        = Returns view ->
        View.toolbar view
        = toolbarProps props a filterOptions columnVisibility
        /\ tableData scores = Returns (DataTable.data (View.table view))
        /\ DataTable.columns (View.table view)
           = Toolbar.columns (View.toolbar view)).
Proof.
  assert (Hview : forall view,
            ScoresTable props a scores filterOptions columnVisibility
            = Returns view ->
            View.toolbar view
            = toolbarProps props a filterOptions columnVisibility
            /\ tableData scores = Returns (DataTable.data (View.table view))
            /\ DataTable.columns (View.table view)
               = Toolbar.columns (View.toolbar view)).
  { unfold ScoresTable.
    destruct (tableData scores) as [d| |]; cbn [bind]; try discriminate.
    intros view [= <-]. repeat split. }
  assert (Hwf : Query.well_formed scores = true ->
                exists view,
                  ScoresTable props a scores filterOptions columnVisibility
                  = Returns view).
  { intros Hw. destruct (tableData_returns scores Hw) as [d Hd].
    unfold ScoresTable. rewrite Hd. cbn [bind]. eauto. }
  assert (Hill : Query.well_formed scores = false ->
                 ScoresTable props a scores filterOptions columnVisibility
                 = Throws TypeError).
  { unfold ScoresTable, Query.well_formed, tableData.
    destruct (Query.isLoading scores); [discriminate|].
    destruct (Query.isError scores).
    - destruct (Query.error scores); [discriminate | reflexivity].
    - destruct (Query.data scores); [discriminate | reflexivity]. }
  split; [split; [|exact Hwf] | split; [exact Hill | exact Hview]].
  intros [view E].
  destruct (Query.well_formed scores); [reflexivity|].
  rewrite (Hill eq_refl) in E. discriminate.
Qed.

Lemma ScoresTable_renders_iff_well_formed_witness :
  @ScoresTable sampleImports
    {| Props.projectId := "p"; Props.userId := None;
       Props.omittedFilter := None |}
    noFragments
    {| Query.isLoading := false; Query.isError := true;
       Query.error := None; Query.data := None |}
    None tt
  = Throws TypeError.
Proof.
  apply (proj1 (proj2 (@ScoresTable_renders_iff_well_formed sampleImports
           {| Props.projectId := "p"; Props.userId := None;
              Props.omittedFilter := None |}
           noFragments
           {| Query.isLoading := false; Query.isError := true;
              Query.error := None; Query.data := None |}
           None tt))).
  reflexivity.
Defined.

(** ** Filterable columns and the exclusion list *)

(** X15: without an exclusion list, or with an empty one, every descriptor is
    handed to the toolbar; and the descriptors handed over depend on the
    names that are excluded only, not on their order or repetition. *)
Theorem omittedFilter_as_a_set `{Imports} (projectId : string)
    (userId : option string) (omitted omitted' : list string)
    (filterOptions : option ScoreOptions) :
  let props o := {| Props.projectId := projectId; Props.userId := userId;
                    Props.omittedFilter := o |} in
  transformFilterOptions (props None) filterOptions
  = scoresTableColsWithOptions filterOptions
  /\ transformFilterOptions (props (Some [])) filterOptions
     = scoresTableColsWithOptions filterOptions
  /\ ((forall name, In name omitted <-> In name omitted') ->
      transformFilterOptions (props (Some omitted)) filterOptions
      = transformFilterOptions (props (Some omitted')) filterOptions)
  /\ ((forall c, In c (scoresTableColsWithOptions filterOptions) ->
                 ~ In (descriptorName c) omitted) ->
      transformFilterOptions (props (Some omitted)) filterOptions
      = scoresTableColsWithOptions filterOptions).
Proof.
  cbn zeta. unfold transformFilterOptions, omittedFilter.
  cbn [Props.omittedFilter].
  assert (Hid : forall (o : list string) (l : list ColumnDescriptor),
            (forall c, In c l -> ~ In (descriptorName c) o) ->
            List.filter (fun c => negb (includes o (descriptorName c))) l
            = l).
  { intros o l. induction l as [|c l IH]; intros Hno; [reflexivity|].
    cbn [List.filter].
    destruct (includes o (descriptorName c)) eqn:E.
    - apply includes_In in E. elim (Hno c (or_introl eq_refl) E).
    - cbn [negb]. f_equal. apply IH. intros c' Hc'. apply Hno. now right. }
  split; [apply Hid; intros c _ []|].
  split; [apply Hid; intros c _ []|].
  split; [|apply Hid].
  intros Hset. apply filter_ext. intros c. f_equal.
  destruct (includes omitted (descriptorName c)) eqn:E1,
           (includes omitted' (descriptorName c)) eqn:E2; try reflexivity.
  - apply includes_In, Hset, includes_In in E1. congruence.
  - apply includes_In, Hset, includes_In in E2. congruence.
Qed.

Lemma omittedFilter_as_a_set_witness :
  @transformFilterOptions sampleImports
    {| Props.projectId := "p"; Props.userId := None;
       Props.omittedFilter := Some ["User ID"; "Name"; "User ID"] |}
    (Some ["Trace ID"; "User ID"; "Name"])
  = @transformFilterOptions sampleImports
      {| Props.projectId := "p"; Props.userId := None;
         Props.omittedFilter := Some ["Name"; "User ID"] |}
      (Some ["Trace ID"; "User ID"; "Name"]).
Proof.
  apply (proj1 (proj2 (proj2 (@omittedFilter_as_a_set sampleImports "p" None
           ["User ID"; "Name"; "User ID"] ["Name"; "User ID"]
           (Some ["Trace ID"; "User ID"; "Name"]))))).
  intros name; cbn; tauto.
Defined.

(** ** The column schema *)

(** X16: in every project the ids of the columns are pairwise different and
    are the accessor keys, only the Trace ID and Observation ID columns
    cannot be hidden, and what the component refers to by name is in the
    schema: the default order is by a sortable column, and the pinned
    condition is on the header of the User ID column. *)
Theorem schema_is_consistent (projectId userId : string) :
  NoDup (map Column.id (columns projectId))
  /\ map Column.accessorKey (columns projectId)
     = map Column.id (columns projectId)
  /\ map Column.id
       (List.filter
          (fun c => match Column.enableHiding c with
                    | Some true => false
                    | _ => true
                    end)
          (columns projectId))
     = ["traceId"; "observationId"]
  /\ (exists o c,
        orderByState noFragments = Some o
        /\ columnWithId projectId (OrderBy.column o) = Some c
        /\ Column.enableSorting c = Some true)
  /\ (exists c,
        columnWithHeader projectId (column (userIdFilter userId)) = Some c
        /\ Column.id c = "userId"
        /\ Column.cell c = Some (userIdCell projectId)).
Proof.
  split.
  { cbn. repeat constructor; cbn; intuition discriminate. }
  split; [reflexivity|]. split; [reflexivity|]. split.
  - eexists. eexists. repeat split.
  - eexists. repeat split.
Qed.

(** ** Values that round to zero *)

(** X6: a value other than zero and below [0.00005] in magnitude is shown as
    zero with four decimals, and keeps its sign: a negative one is shown
    as ["-0.0000"]. *)
Theorem valueCell_rounds_to_signed_zero (row : ScoresTableRow.t)
    (negative : bool) (m : positive) (e : Z) :
  ScoresTableRow.value row = Some (S754_finite negative m e) ->
  Number.valid (S754_finite negative m e) = true ->
  e < 0 -> 2 * (Zpos m * 10 ^ 4) < 2 ^ (- e) ->
  valueCell row
  = Returns (StringNode (if negative then "-0.0000" else "0.0000")).
Proof.
  intros Hr Hv He Hsmall.
  assert (0 < 2 ^ (- e)) as Hd by (apply Z.pow_pos_nonneg; lia).
  assert (Hi : Number.integral (S754_finite negative m e) = false).
  { cbn [Number.integral]. apply orb_false_iff. split.
    - apply Z.leb_gt. exact He.
    - apply Z.eqb_neq. rewrite Z.mod_small by lia. lia. }
  rewrite (valueCell_fraction row negative m e Hr Hv Hi).
  assert (Hn : Number.nearest_scaled 4 m e = 0).
  { unfold Number.nearest_scaled.
    rewrite (proj2 (Z.leb_gt 0 e) He).
    apply Z.div_small. change (Z.of_nat 4) with 4. lia. }
  rewrite Hn. now destruct negative.
Qed.

Lemma valueCell_rounds_to_signed_zero_witness :
  valueCell (rowWithValue (Some (Number.of_ratio (-1) 100000)))
  = Returns (StringNode "-0.0000").
Proof.
  apply (valueCell_rounds_to_signed_zero
           (rowWithValue (Some (Number.of_ratio (-1) 100000)))
           true 5902958103587057 (-69) eq_refl eq_refl);
    [lia | vm_compute; reflexivity].
Defined.

(** ** Page sizes that are not positive *)

(** X9: the page size is not checked.  For a row count below [2^53],
    with the page size 0 the page count is [Infinity], or [NaN] when
    there are no rows; with a negative page size above [-2^53] it is the
    quotient of the magnitudes rounded down and negated, which is at
    most 0, and the negative zero when the row count is below the
    magnitude of the page size. *)
Theorem pageCount_of_non_positive_size (totalCount pageSize : Z) :
  0 <= totalCount < 2 ^ 53 -> - 2 ^ 53 < pageSize <= 0 ->
  (pageSize = 0 ->
   pageCount totalCount pageSize
   = if totalCount =? 0 then S754_nan else S754_infinity false)
  /\ (pageSize < 0 ->
      exists n,
        Number.toZ (pageCount totalCount pageSize) = Some n
        /\ n <= 0
        /\ n = - (totalCount / - pageSize)
        /\ (totalCount < - pageSize ->
            pageCount totalCount pageSize = S754_zero true)).
Proof.
  intros Ht Hs. split.
  - intros ->. now apply pageCount_zero_size.
  - intros Hneg.
    rewrite (pageCount_negative_size totalCount pageSize Ht ltac:(lia)).
    exists (- (totalCount / - pageSize)).
    assert (Hq : 0 <= totalCount / - pageSize) by (apply Z.div_pos; lia).
    assert (Hq' : totalCount / - pageSize <= totalCount).
    { pose proof (Z.div_mod totalCount (- pageSize) ltac:(lia)).
      pose proof (Z.mod_pos_bound totalCount (- pageSize) ltac:(lia)).
      nia. }
    split; [|split; [lia|split; [reflexivity|]]].
    + destruct (totalCount / - pageSize) as [|q|q] eqn:Eq; try lia.
      * reflexivity.
      * change (binary_normalize Number.prec Number.emax (- Zpos q) 0 true)
          with (Number.of_Z (Zneg q)).
        apply toZ_of_Z_safe. lia.
    + intros Hsmall. rewrite Z.div_small by lia. reflexivity.
Qed.

Lemma pageCount_of_non_positive_size_witness :
  exists n,
    Number.toZ (pageCount 101 (-50)) = Some n
    /\ n <= 0
    /\ n = - (101 / - (-50))
    /\ (101 < - (-50) -> pageCount 101 (-50) = S754_zero true).
Proof.
  apply (proj2 (pageCount_of_non_positive_size 101 (-50)
                  ltac:(lia) ltac:(lia))).
  lia.
Defined.
